(** * pyHighlight: the block highlighter of the script editor

    A shallow embedding of [codeEditor/highlighter/pyHighlight.py]: the rule
    table of [PythonHighlighter], [buildRules], [highlightMultilineBlock] and
    [highlightBlock], together with the part of Qt they call
    ([QRegExp.indexIn], [matchedLength], [pos], [cap]; the block states and
    [setFormat] of [QSyntaxHighlighter]). *)

From Stdlib Require Import ZArith List String Ascii Bool Lia.
Import ListNotations.

Set Implicit Arguments.

(** ** Characters *)

Module Chars.

Definition code (c : ascii) : nat := nat_of_ascii c.

Definition between (lo hi n : nat) : bool := (lo <=? n)%nat && (n <=? hi)%nat.

Definition is_digit (c : ascii) : bool := between 48 57 (code c).
Definition is_upper (c : ascii) : bool := between 65 90 (code c).
Definition is_lower (c : ascii) : bool := between 97 122 (code c).

(** [\w] of QRegExp: a letter, a digit or the underscore. *)
Definition is_word (c : ascii) : bool :=
  is_digit c || is_upper c || is_lower c || (code c =? 95)%nat.

(** [\s] of QRegExp: space, tab, line feed, vertical tab, form feed,
    carriage return. *)
Definition is_space (c : ascii) : bool :=
  (code c =? 32)%nat || between 9 13 (code c).

Definition to_lower (c : ascii) : ascii :=
  if is_upper c then ascii_of_nat (code c + 32) else c.

Definition to_upper (c : ascii) : ascii :=
  if is_lower c then ascii_of_nat (code c - 32) else c.

(** Comparison of a pattern character with a text character under the
    case-sensitivity of the expression. *)
Definition eqc (cs : bool) (a b : ascii) : bool :=
  if cs then Ascii.eqb a b else Ascii.eqb (to_lower a) (to_lower b).

(** The double quote and the single quote, for the patterns that hold them. *)
Definition dquote : ascii := ascii_of_nat 34.
Definition squote : ascii := ascii_of_nat 39.
Definition newline : ascii := ascii_of_nat 10.
Definition tab : ascii := ascii_of_nat 9.
Definition creturn : ascii := ascii_of_nat 13.

End Chars.

(** ** Regular expressions: the syntax the rule table is written in *)

Module Regex.
Import Chars.

Inductive citem : Type :=
| CChar (c : ascii)
| CRange (lo hi : ascii)
| CWord
| CSpace
| CDigit.

Inductive re : Type :=
| Eps
| Chr (c : ascii)
| Any
| Cls (neg : bool) (items : list citem)
| WordB
| Bol
| Eol
| Seq (a b : re)
| Alt (a b : re)
| Star (a : re)
| Grp (n : nat) (a : re).

(** [a+] and [a?] are sugar. *)
Definition Plus (a : re) : re := Seq a (Star a).
Definition Opt (a : re) : re := Alt a Eps.

(** *** Parser

    The grammar is the one of the patterns of the rule table: alternation,
    concatenation, the postfix operators [*], [+] and [?], capturing and
    non-capturing groups, classes with ranges and negation, the escapes
    [\b], [\w], [\s], [\d], [\n], [\t], [\r] and escaped literals, the dot
    and the two anchors.  A pattern outside of it (an unbalanced
    parenthesis, an open class, a postfix operator with nothing before it, a
    counted repetition) does not compile. *)

Definition escape_atom (c : ascii) : re :=
  if Ascii.eqb c "b" then WordB
  else if Ascii.eqb c "w" then Cls false [CWord]
  else if Ascii.eqb c "W" then Cls true [CWord]
  else if Ascii.eqb c "s" then Cls false [CSpace]
  else if Ascii.eqb c "S" then Cls true [CSpace]
  else if Ascii.eqb c "d" then Cls false [CDigit]
  else if Ascii.eqb c "D" then Cls true [CDigit]
  else if Ascii.eqb c "n" then Chr newline
  else if Ascii.eqb c "t" then Chr tab
  else if Ascii.eqb c "r" then Chr creturn
  else Chr c.

Definition escape_item (c : ascii) : citem :=
  if Ascii.eqb c "w" then CWord
  else if Ascii.eqb c "s" then CSpace
  else if Ascii.eqb c "d" then CDigit
  else if Ascii.eqb c "n" then CChar newline
  else if Ascii.eqb c "t" then CChar tab
  else if Ascii.eqb c "r" then CChar creturn
  else CChar c.

(** The items of a class, up to its closing bracket. *)
Fixpoint p_items (s : list ascii) : option (list citem * list ascii) :=
  match s with
  | [] => None
  | c :: s1 =>
      if Ascii.eqb c "]" then Some ([], s1)
      else if Ascii.eqb c "\" then
        match s1 with
        | [] => None
        | e :: s2 =>
            match p_items s2 with
            | Some (its, s3) => Some (escape_item e :: its, s3)
            | None => None
            end
        end
      else
        match s1 with
        | d :: hi :: s2 =>
            if Ascii.eqb d "-" && negb (Ascii.eqb hi "]") then
              match p_items s2 with
              | Some (its, s3) => Some (CRange c hi :: its, s3)
              | None => None
              end
            else
              match p_items s1 with
              | Some (its, s3) => Some (CChar c :: its, s3)
              | None => None
              end
        | _ =>
            match p_items s1 with
            | Some (its, s3) => Some (CChar c :: its, s3)
            | None => None
            end
        end
  end.

Definition p_class (s : list ascii) : option (re * list ascii) :=
  match s with
  | c :: s1 =>
      if Ascii.eqb c "^" then
        match p_items s1 with
        | Some (its, s2) => Some (Cls true its, s2)
        | None => None
        end
      else
        match p_items s with
        | Some (its, s2) => Some (Cls false its, s2)
        | None => None
        end
  | [] => None
  end.

(** The postfix operators that follow an atom. *)
Fixpoint p_quant (a : re) (s : list ascii) : re * list ascii :=
  match s with
  | c :: s1 =>
      if Ascii.eqb c "*" then p_quant (Star a) s1
      else if Ascii.eqb c "+" then p_quant (Plus a) s1
      else if Ascii.eqb c "?" then p_quant (Opt a) s1
      else (a, s)
  | [] => (a, s)
  end.

Definition is_postfix (c : ascii) : bool :=
  Ascii.eqb c "*" || Ascii.eqb c "+" || Ascii.eqb c "?" || Ascii.eqb c "{"
  || Ascii.eqb c "}".

(** [n] is the number of capturing groups opened so far. *)
Fixpoint p_alt (fuel n : nat) (s : list ascii) {struct fuel}
  : option (re * nat * list ascii) :=
  match fuel with
  | O => None
  | S f =>
      match p_seq f n s with
      | Some (a, n1, s1) =>
          match s1 with
          | c :: s2 =>
              if Ascii.eqb c "|" then
                match p_alt f n1 s2 with
                | Some (b, n2, s3) => Some (Alt a b, n2, s3)
                | None => None
                end
              else Some (a, n1, s1)
          | [] => Some (a, n1, s1)
          end
      | None => None
      end
  end
with p_seq (fuel n : nat) (s : list ascii) {struct fuel}
  : option (re * nat * list ascii) :=
  match fuel with
  | O => None
  | S f =>
      match s with
      | [] => Some (Eps, n, s)
      | c :: _ =>
          if Ascii.eqb c "|" || Ascii.eqb c ")" then Some (Eps, n, s)
          else
            match p_atom f n s with
            | Some (a, n1, s1) =>
                let '(a', s2) := p_quant a s1 in
                match p_seq f n1 s2 with
                | Some (b, n2, s3) => Some (Seq a' b, n2, s3)
                | None => None
                end
            | None => None
            end
      end
  end
with p_atom (fuel n : nat) (s : list ascii) {struct fuel}
  : option (re * nat * list ascii) :=
  match fuel with
  | O => None
  | S f =>
      match s with
      | [] => None
      | c :: s1 =>
          if Ascii.eqb c "(" then
            match s1 with
            | q :: k :: s2 =>
                if Ascii.eqb q "?" && Ascii.eqb k ":" then
                  match p_alt f n s2 with
                  | Some (a, n1, c1 :: s3) =>
                      if Ascii.eqb c1 ")" then Some (a, n1, s3) else None
                  | _ => None
                  end
                else
                  match p_alt f (S n) s1 with
                  | Some (a, n1, c1 :: s3) =>
                      if Ascii.eqb c1 ")" then Some (Grp (S n) a, n1, s3)
                      else None
                  | _ => None
                  end
            | _ =>
                match p_alt f (S n) s1 with
                | Some (a, n1, c1 :: s3) =>
                    if Ascii.eqb c1 ")" then Some (Grp (S n) a, n1, s3)
                    else None
                | _ => None
                end
            end
          else if Ascii.eqb c "[" then
            match p_class s1 with
            | Some (a, s2) => Some (a, n, s2)
            | None => None
            end
          else if Ascii.eqb c "\" then
            match s1 with
            | e :: s2 => Some (escape_atom e, n, s2)
            | [] => None
            end
          else if Ascii.eqb c "." then Some (Any, n, s1)
          else if Ascii.eqb c "^" then Some (Bol, n, s1)
          else if Ascii.eqb c "$" then Some (Eol, n, s1)
          else if is_postfix c || Ascii.eqb c "]" then None
          else Some (Chr c, n, s1)
      end
  end.

(** A pattern compiles when the whole of it is one alternation. *)
Definition parse (p : string) : option re :=
  let s := list_ascii_of_string p in
  match p_alt (3 * List.length s + 3) 0 s with
  | Some (r, _, []) => Some r
  | _ => None
  end.

End Regex.

(** ** Matching: leftmost match, greedy operators, captures *)

Module Matcher.
Import Chars Regex.

(** The captured groups, most recent first: group number, start and end. *)
Definition Caps : Type := list (nat * (nat * nat)).

Record Match : Type := { m_start : nat; m_end : nat; m_caps : Caps }.

Fixpoint lookup (n : nat) (c : Caps) : option (nat * nat) :=
  match c with
  | [] => None
  | (k, v) :: c' => if (k =? n)%nat then Some v else lookup n c'
  end.

Section Run.
Variable cs : bool.
Variable text : list ascii.

Definition item_has (it : citem) (c : ascii) : bool :=
  match it with
  | CChar d => eqc cs d c
  | CRange lo hi =>
      if cs then between (code lo) (code hi) (code c)
      else between (code lo) (code hi) (code (to_lower c))
           || between (code lo) (code hi) (code (to_upper c))
  | CWord => is_word c
  | CSpace => is_space c
  | CDigit => is_digit c
  end.

Definition in_class (neg : bool) (items : list citem) (c : ascii) : bool :=
  xorb neg (existsb (fun it => item_has it c) items).

Definition word_at (i : nat) : bool :=
  match nth_error text i with
  | Some c => is_word c
  | None => false
  end.

(** [\b]: exactly one of the characters before and at [i] is a word
    character; the edges of the text count as non-word. *)
Definition boundary (i : nat) : bool :=
  xorb (match i with O => false | S p => word_at p end) (word_at i).

(** One character of the text at [i], if it passes [ok]. *)
Definition step (ok : ascii -> bool) (i : nat) (c : Caps)
           (k : nat -> Caps -> option (nat * Caps)) : option (nat * Caps) :=
  match nth_error text i with
  | Some d => if ok d then k (S i) c else None
  | None => None
  end.

(** The iterations of a star whose body is matched by [ma]: at most [n]
    of them, each one consuming at least one character, as many as the
    rest of the expression allows. *)
Fixpoint star (ma : nat -> Caps -> (nat -> Caps -> option (nat * Caps))
                    -> option (nat * Caps))
         (k : nat -> Caps -> option (nat * Caps))
         (n i : nat) (c : Caps) {struct n} : option (nat * Caps) :=
  match n with
  | O => k i c
  | S n' =>
      match ma i c (fun j c1 =>
                      if (i <? j)%nat then star ma k n' j c1 else None)
      with
      | Some x => Some x
      | None => k i c
      end
  end.

(** [m r i c k]: match [r] at position [i] and hand the end position and
    the captures to the continuation [k]; the first success in the order
    of a backtracking search is the result.  An iteration of a star that
    consumes nothing is not repeated. *)
Fixpoint m (r : re) (i : nat) (c : Caps)
         (k : nat -> Caps -> option (nat * Caps)) {struct r}
  : option (nat * Caps) :=
  match r with
  | Eps => k i c
  | Chr a => step (eqc cs a) i c k
  | Any => step (fun _ => true) i c k
  | Cls neg items => step (in_class neg items) i c k
  | WordB => if boundary i then k i c else None
  | Bol => if (i =? 0)%nat then k i c else None
  | Eol => if (i =? List.length text)%nat then k i c else None
  | Seq a b => m a i c (fun j c1 => m b j c1 k)
  | Alt a b =>
      match m a i c k with
      | Some x => Some x
      | None => m b i c k
      end
  | Star a => star (m a) k (S (List.length text) - i)%nat i c
  | Grp n a => m a i c (fun j c1 => k j ((n, (i, j)) :: c1))
  end.

Definition match_at (r : re) (p : nat) : option Match :=
  match m r p [] (fun j c => Some (j, c)) with
  | Some (j, c) => Some {| m_start := p; m_end := j; m_caps := c |}
  | None => None
  end.

(** The leftmost match among the positions [p], [p+1], ..., [p+n]. *)
Fixpoint search (r : re) (n p : nat) {struct n} : option Match :=
  match match_at r p with
  | Some x => Some x
  | None =>
      match n with
      | O => None
      | S n' => search r n' (S p)
      end
  end.

End Run.

End Matcher.

(** ** QRegExp: the calls the highlighter makes

    [QRegExp(pattern, cs)] never fails: an expression whose pattern does not
    compile is merely invalid and matches nothing.  [indexIn] stores the
    captures of the attempt in the expression; [matchedLength], [pos] and
    [cap] read them back.  Both methods of the highlighter read them right
    after the [indexIn] they belong to, so the stored captures are the value
    [indexIn] returns here. *)

Module QRegExp.
Import Regex Matcher.

Record t : Type := QRegExp { pattern : string; caseSensitive : bool }.


(** [indexIn(text, offset)]: a negative offset counts from the end of the
    text; the search runs only from an offset inside [0, len]. *)
Definition indexIn (q : t) (text : string) (offset : Z) : option Match :=
  match parse (pattern q) with
  | None => None
  | Some r =>
      let len := Z.of_nat (String.length text) in
      let off := if (offset <? 0)%Z then (offset + len)%Z else offset in
      if ((0 <=? off) && (off <=? len))%Z then
        search (caseSensitive q) (list_ascii_of_string text) r
               (Z.to_nat (len - off)) (Z.to_nat off)
      else None
  end.

(** The value [indexIn] returns to its caller: the position, or -1. *)
Definition index (mt : option Match) : Z :=
  match mt with
  | Some x => Z.of_nat (m_start x)
  | None => (-1)%Z
  end.

Definition matchedLength (mt : option Match) : Z :=
  match mt with
  | Some x => (Z.of_nat (m_end x) - Z.of_nat (m_start x))%Z
  | None => (-1)%Z
  end.

(** The range of the capture [nth]; 0 is the whole match. *)
Definition captured (mt : option Match) (nth : Z) : option (nat * nat) :=
  match mt with
  | Some x =>
      if (nth =? 0)%Z then Some (m_start x, m_end x)
      else if (nth <? 0)%Z then None
      else lookup (Z.to_nat nth) (m_caps x)
  | None => None
  end.

Definition pos (mt : option Match) (nth : Z) : Z :=
  match captured mt nth with
  | Some (a, _) => Z.of_nat a
  | None => (-1)%Z
  end.

(** [len(cap(nth))]: the length of the captured text, 0 when the group
    took no part in the match. *)
Definition cap_len (mt : option Match) (nth : Z) : Z :=
  match captured mt nth with
  | Some (a, b) => (Z.of_nat b - Z.of_nat a)%Z
  | None => 0%Z
  end.

End QRegExp.

(** ** The styles and the rule table *)

Module Style.

(** The keys of [STYLES]; a rule carries the entry it was given. *)
Inductive key : Type :=
| keyword | operator | brace | def | class | string | stringBlock
| comment | clsself | private | numbers.

Definition eqb (a b : key) : bool :=
  match a, b with
  | keyword, keyword | operator, operator | brace, brace | def, def
  | class, class | string, string | stringBlock, stringBlock
  | comment, comment | clsself, clsself | private, private
  | numbers, numbers => true
  | _, _ => false
  end.

Record QTextCharFormat : Type :=
  { foreground : option String.string; fontBold : bool; fontItalic : bool }.

(** [getFormat(color, styles)]; [styles] is the list the function
    normalises its argument to (empty for [None]). *)
Definition getFormat (color : option String.string)
           (styles : list String.string) : QTextCharFormat :=
  {| foreground := color;
     fontBold := existsb (String.eqb "bold") styles;
     fontItalic := existsb (String.eqb "italic") styles |}.


End Style.

Open Scope string_scope.
Open Scope Z_scope.
Open Scope list_scope.

Inductive Rule : Type :=
| LineRule (pattern : string) (captureBlock : Z) (style : Style.key)
| MultiLineRule (start end_ : string) (state : Z) (style : Style.key).

Definition keywords : list string :=
  [ "and"; "assert"; "break"; "class"; "continue"; "def";
    "del"; "elif"; "else"; "except"; "exec"; "finally";
    "for"; "from"; "global"; "if"; "import"; "in";
    "is"; "lambda"; "not"; "or"; "pass"; "print";
    "raise"; "return"; "try"; "while"; "yield";
    "None"; "True"; "False" ].

Definition operators : list string :=
  [ "=";
    "=="; "!="; "<"; "<="; ">"; ">=";
    "\+"; "-"; "\*"; "/"; "//"; "\%"; "\*\*";
    "\+="; "-="; "\*="; "/="; "\%=";
    "\^"; "\|"; "\&"; "\~"; ">>"; "<<" ].

Definition braces : list string :=
  [ "\{"; "\}"; "\("; "\)"; "\["; "\]" ].

Definition dq : string := String Chars.dquote EmptyString.
Definition sq : string := String Chars.squote EmptyString.

(** The two single-line string patterns and the two delimiters, written with
    [dq] and [sq] for the quote characters. *)
Definition dq_string_pattern : string :=
  dq ++ "[^" ++ dq ++ "\\]*(\\.[^" ++ dq ++ "\\]*)*" ++ dq.
Definition sq_string_pattern : string :=
  sq ++ "[^" ++ sq ++ "\\]*(\\.[^" ++ sq ++ "\\]*)*" ++ sq.
Definition triple_dq : string := dq ++ dq ++ dq.
Definition triple_sq : string := sq ++ sq ++ sq.

(** The list [rules] that [__init__] hands to [buildRules]. *)
Definition default_rules : list Rule :=
  map (fun k => LineRule ("\b" ++ k ++ "\b") 0 Style.keyword) keywords
  ++ map (fun o => LineRule o 0 Style.operator) operators
  ++ map (fun b => LineRule b 0 Style.brace) braces
  ++ [ LineRule "\b(?:cls|self)\b" 0 Style.clsself;
       LineRule "\bdef\b\s*(\w+)" 1 Style.def;
       LineRule "\bclass\b\s*(\w+)" 1 Style.class;
       LineRule "\b[+-]?[0-9]+[lL]?\b" 0 Style.numbers;
       LineRule "\b[+-]?0[xX][0-9A-Fa-f]+[lL]?\b" 0 Style.numbers;
       LineRule "\b[+-]?[0-9]+(?:\.[0-9]+)?(?:[eE][+-]?[0-9]+)?\b" 0
                Style.numbers;
       LineRule "\b_[\w]+\b" 0 Style.private;
       LineRule dq_string_pattern 0 Style.string;
       LineRule sq_string_pattern 0 Style.string;
       LineRule "#[^\n]*" 0 Style.comment;
       MultiLineRule triple_dq triple_dq 1 Style.stringBlock;
       MultiLineRule triple_sq triple_sq 2 Style.stringBlock ].

(** ** The highlighter object and [buildRules] *)

Definition CompiledLineRule : Type := (QRegExp.t * Z * Style.key)%type.
Definition CompiledBlockRule : Type :=
  (QRegExp.t * QRegExp.t * Z * Style.key)%type.

(** The attributes of an instance.  [caseSensitive] is [None] as long as
    nothing has assigned [self.caseSensitive]. *)
Record PythonHighlighter : Type :=
  { rules : list CompiledLineRule;
    blockRules : list CompiledBlockRule;
    caseSensitive : option bool }.

Inductive Exception : Type :=
| AttributeError (name : string).

Definition add_rule (case_sensitive : bool) (self : PythonHighlighter)
           (rule : Rule) : PythonHighlighter :=
  match rule with
  | MultiLineRule start end_ state fmt =>
      {| rules := rules self;
         blockRules :=
           blockRules self
           ++ [ (QRegExp.QRegExp start case_sensitive,
                 QRegExp.QRegExp end_ case_sensitive, state, fmt) ];
         caseSensitive := caseSensitive self |}
  | LineRule pat index fmt =>
      {| rules := rules self ++ [ (QRegExp.QRegExp pat case_sensitive, index, fmt) ];
         blockRules := blockRules self;
         caseSensitive := caseSensitive self |}
  end.

Definition buildRules (self : PythonHighlighter) (rule_list : list Rule)
           (append : bool) : Exception + PythonHighlighter :=
  let self :=
    if append then self
    else {| rules := []; blockRules := [];
            caseSensitive := caseSensitive self |} in
  match caseSensitive self with
  | None => inl (AttributeError "caseSensitive")
  | Some case_sensitive =>
      inr (fold_left (add_rule case_sensitive) rule_list self)
  end.

(** [PythonHighlighter.__init__]: the two lists are set to empty, the rule
    list is assembled and passed to [buildRules]. *)
Definition __init__ : Exception + PythonHighlighter :=
  let self := {| rules := []; blockRules := []; caseSensitive := None |} in
  buildRules self default_rules false.

(** ** The block being highlighted

    [QSyntaxHighlighter] keeps, for the block it is working on, the state of
    the block and the formats set so far.  The state of the block is the user
    state stored in the document: when [highlightBlock] is entered it still
    holds what the previous highlighting of this block left there (-1 for a
    block never highlighted).  The state of the previous block is read only.

    [formats] lists the [setFormat] calls in program order and [calls] the
    [indexIn] calls, each with what it searched from and the index it
    returned. *)

Definition Span : Type := (Z * Z * Style.key)%type.

(** [StartSearch in_state offset result]: [start.indexIn(text, offset)] in the
    call for the rule tagged [in_state].
    [EndSearch in_state start_index add result]:
    [end.indexIn(text, start_index + add)] in that call.
    [LineSearch pattern offset result]: [pattern.indexIn(text, offset)] of a
    line rule. *)
Inductive Call : Type :=
| StartSearch (in_state offset result : Z)
| EndSearch (in_state start_index add result : Z)
| LineSearch (pattern : string) (offset result : Z).

Record Block : Type :=
  { currentBlockState : Z; formats : list Span; calls : list Call }.

Definition setCurrentBlockState (newState : Z) (b : Block) : Block :=
  {| currentBlockState := newState; formats := formats b; calls := calls b |}.

Definition setFormat (start count : Z) (format : Style.key) (b : Block) : Block :=
  {| currentBlockState := currentBlockState b;
     formats := formats b ++ [ (start, count, format) ];
     calls := calls b |}.

Definition called (c : Call) (b : Block) : Block :=
  {| currentBlockState := currentBlockState b;
     formats := formats b;
     calls := calls b ++ [ c ] |}.

Definition len (text : string) : Z := Z.of_nat (String.length text).

(** What [setFormat(start, count, format)] does to a block of [n] characters:
    nothing when [start] is outside of the block, else the characters from
    [start] to [min (start + count) n] take the format. *)
Definition covers (n : Z) (sp : Span) (i : Z) : bool :=
  let '(start, count, _) := sp in
  (0 <=? start) && (start <? n) && (start <=? i) && (i <? Z.min (start + count) n).

(** The format of character [i] once the calls [fs] are applied in order. *)
Definition styleAt (n : Z) (fs : list Span) (i : Z) : option Style.key :=
  fold_left (fun acc sp => if covers n sp i then Some (snd sp) else acc) fs None.

(** ** highlightMultilineBlock *)

Section MultiLine.
Variable text : string.
Variable previousBlockState : Z.
Variables start end_ : QRegExp.t.
Variable in_state : Z.
Variable style : Style.key.

(** The loop [while start_index >= 0]; [fuel] bounds its iterations. *)
Fixpoint multiline_while (fuel : nat) (add start_index : Z) (b : Block)
  : option Block :=
  if start_index >=? 0 then
    match fuel with
    | O => None
    | S fuel' =>
        let em := QRegExp.indexIn end_ text (start_index + add) in
        let end_index := QRegExp.index em in
        let b := called (EndSearch in_state start_index add end_index) b in
        let '(length, b) :=
          if end_index >=? add then
            (end_index - start_index + add + QRegExp.matchedLength em,
             setCurrentBlockState 0 b)
          else
            (len text - start_index + add,
             setCurrentBlockState in_state b) in
        let b := setFormat start_index length style b in
        let sm := QRegExp.indexIn start text (start_index + length) in
        let b :=
          called (StartSearch in_state (start_index + length)
                              (QRegExp.index sm)) b in
        multiline_while fuel' add (QRegExp.index sm) b
    end
  else Some b.

Definition highlightMultilineBlock (fuel : nat) (b : Block)
  : option (bool * Block) :=
  let '(start_index, add, b) :=
    if previousBlockState =? in_state then (0, 0, b)
    else
      let sm := QRegExp.indexIn start text 0 in
      (QRegExp.index sm, QRegExp.matchedLength sm,
       called (StartSearch in_state 0 (QRegExp.index sm)) b) in
  match multiline_while fuel add start_index b with
  | Some b' => Some (currentBlockState b' =? in_state, b')
  | None => None
  end.

End MultiLine.

(** ** highlightBlock *)

Section Block.
Variable text : string.
Variable previousBlockState : Z.

(** The loop over [self.blockRules], with its [break]. *)
Fixpoint block_loop (fuel : nat) (rs : list CompiledBlockRule) (b : Block)
  : option (bool * Block) :=
  match rs with
  | [] => Some (false, b)
  | (start, end_, idx, fmt) :: rs' =>
      match highlightMultilineBlock text previousBlockState
                                    start end_ idx fmt fuel b with
      | Some (true, b') => Some (true, b')
      | Some (false, b') => block_loop fuel rs' b'
      | None => None
      end
  end.

(** The loop [while index >= 0] of one line rule; [pm] is what the last
    [indexIn] of [pattern] left in it. *)
Fixpoint line_while (fuel : nat) (pattern : QRegExp.t) (nth : Z)
         (fmt : Style.key) (pm : option Matcher.Match) (b : Block)
  : option Block :=
  if QRegExp.index pm >=? 0 then
    match fuel with
    | O => None
    | S fuel' =>
        let index := QRegExp.pos pm nth in
        let length := QRegExp.cap_len pm nth in
        let b := setFormat index length fmt b in
        let pm' := QRegExp.indexIn pattern text (index + length) in
        let b :=
          called (LineSearch (QRegExp.pattern pattern) (index + length)
                             (QRegExp.index pm')) b in
        line_while fuel' pattern nth fmt pm' b
    end
  else Some b.

Fixpoint rules_loop (fuel : nat) (rs : list CompiledLineRule) (b : Block)
  : option Block :=
  match rs with
  | [] => Some b
  | (pattern, nth, fmt) :: rs' =>
      let pm := QRegExp.indexIn pattern text 0 in
      let b :=
        called (LineSearch (QRegExp.pattern pattern) 0 (QRegExp.index pm)) b in
      match line_while fuel pattern nth fmt pm b with
      | Some b' => rules_loop fuel rs' b'
      | None => None
      end
  end.

(** [highlightBlock(text)] on a block whose stored state is
    [storedState]; [None] when a loop runs out of [fuel]. *)
Definition highlightBlock (fuel : nat) (self : PythonHighlighter)
           (storedState : Z) : option Block :=
  let b := {| currentBlockState := storedState; formats := []; calls := [] |} in
  match block_loop fuel (blockRules self) b with
  | Some (true, b') => Some b'
  | Some (false, b') =>
      match rules_loop fuel (rules self) b' with
      | Some b'' => Some (setCurrentBlockState 0 b'')
      | None => None
      end
  | None => None
  end.

End Block.

(** The highlighter [buildRules] makes of the rule table once the flag has a
    value. *)
Definition with_flag (cs : bool) : PythonHighlighter :=
  {| rules := []; blockRules := []; caseSensitive := Some cs |}.

Definition default_highlighter (cs : bool) : PythonHighlighter :=
  fold_left (add_rule cs) default_rules (with_flag cs).

(** Fuel that is enough for every loop on [text] when no rule has an empty
    match (see [HighlightFacts.highlightBlock_spec]). *)
Definition fuel_of (text : string) : nat := S (String.length text).

(** ** Rule sets on which every loop terminates *)

Module Productive.
Import Regex.

(** A lower bound on the length of every match. *)
Fixpoint minlen (r : re) : nat :=
  match r with
  | Eps | WordB | Bol | Eol | Star _ => 0
  | Chr _ | Any | Cls _ _ => 1
  | Seq a b => minlen a + minlen b
  | Alt a b => Nat.min (minlen a) (minlen b)
  | Grp _ a => minlen a
  end.

(** Every match ends with a non-empty capture of group [n]. *)
Fixpoint ends_with_group (n : nat) (r : re) : bool :=
  match r with
  | Grp k a => (k =? n)%nat && (1 <=? minlen a)%nat
  | Seq a b =>
      match b with
      | Eps => ends_with_group n a
      | _ => ends_with_group n b
      end
  | _ => false
  end.

(** No match of the expression is empty. *)
Definition nonempty (q : QRegExp.t) : bool :=
  match parse (QRegExp.pattern q) with
  | Some r => (1 <=? minlen r)%nat
  | None => true
  end.

Definition block_ok (r : CompiledBlockRule) : bool :=
  let '(start, end_, _, _) := r in nonempty start && nonempty end_.

(** The capture a line rule formats is never empty and ends its match. *)
Definition line_ok (r : CompiledLineRule) : bool :=
  let '(q, nth, _) := r in
  match parse (QRegExp.pattern q) with
  | Some e =>
      if nth =? 0 then (1 <=? minlen e)%nat
      else (0 <? nth) && ends_with_group (Z.to_nat nth) e
  | None => true
  end.

Definition productive (self : PythonHighlighter) : bool :=
  forallb block_ok (blockRules self) && forallb line_ok (rules self).

End Productive.

(** The region-state tags registered in a highlighter. *)
Definition registered (self : PythonHighlighter) : list Z :=
  map (fun r : CompiledBlockRule => snd (fst r)) (blockRules self).

(** ** Reading the log of a call *)

(** A call of the multi-line pass that leaves no region open: a start search,
    or an end search that found the end pattern. *)
Definition multiline_closed (c : Call) : Prop :=
  match c with
  | StartSearch _ _ _ => True
  | EndSearch _ _ _ r => r <> -1
  | LineSearch _ _ _ => False
  end.

(** Not an end search that failed. *)
Definition closes (c : Call) : Prop :=
  match c with
  | EndSearch _ _ _ r => r <> -1
  | _ => True
  end.

Definition is_line_search (c : Call) : Prop :=
  match c with
  | LineSearch _ _ _ => True
  | _ => False
  end.

(** From [b] to [b'] only calls of the multi-line pass were made, and none
    left a region open. *)
Definition closed_run (b b' : Block) : Prop :=
  exists evs fs,
    Forall multiline_closed evs
    /\ calls b' = calls b ++ evs
    /\ formats b' = formats b ++ fs.

(** From [b] to [b'] the multi-line pass ran and the last thing it did was to
    fail to find the end pattern of the rule tagged [tag], for the region
    started at [s] with the skip [a]: the format to the end of the line, the
    state [tag] and one more search for the start pattern, which failed. *)
Definition open_run (text : string) (tag : Z) (style : Style.key)
           (s a : Z) (b b' : Block) : Prop :=
  exists evs fs,
    Forall multiline_closed evs
    /\ calls b' = calls b ++ evs
                  ++ [ EndSearch tag s a (-1);
                       StartSearch tag (len text + a) (-1) ]
    /\ formats b' = formats b ++ fs ++ [ (s, len text - s + a, style) ]
    /\ currentBlockState b' = tag
    /\ 0 <= s <= len text /\ 0 <= a.

(** From [b] to [b'] only line rules searched and set formats. *)
Definition line_run (b b' : Block) : Prop :=
  exists evs fs,
    Forall is_line_search evs
    /\ calls b' = calls b ++ evs
    /\ formats b' = formats b ++ fs
    /\ currentBlockState b' = currentBlockState b.

(** The block [highlightBlock] starts from. *)
Definition entry (storedState : Z) : Block :=
  {| currentBlockState := storedState; formats := []; calls := [] |}.

(** Two results of the loop over the block rules that are equal, or that
    both say that no region is open, on blocks that differ only in a state
    outside of [tags]. *)
Definition agree (tags : list Z) (r1 r2 : option (bool * Block)) : Prop :=
  r1 = r2
  \/ exists b n1 n2,
      ~ In n1 tags /\ ~ In n2 tags
      /\ r1 = Some (false, setCurrentBlockState n1 b)
      /\ r2 = Some (false, setCurrentBlockState n2 b).

(** ** What a call of [highlightBlock] gives back, and the lines studied *)

(** The formats set and the state left in the block. *)
Definition spans_and_state (r : option Block) : option (list Span * Z) :=
  option_map (fun b => (formats b, currentBlockState b)) r.

(** The searches made. *)
Definition calls_of (r : option Block) : option (list Call) :=
  option_map calls r.



(** The rules of a list as [buildRules] stores them. *)
Definition compile_line (cs : bool) (r : Rule) : list CompiledLineRule :=
  match r with
  | LineRule pat index fmt => [ (QRegExp.QRegExp pat cs, index, fmt) ]
  | MultiLineRule _ _ _ _ => []
  end.

Definition compile_block (cs : bool) (r : Rule) : list CompiledBlockRule :=
  match r with
  | LineRule _ _ _ => []
  | MultiLineRule start end_ state fmt =>
      [ (QRegExp.QRegExp start cs, QRegExp.QRegExp end_ cs, state, fmt) ]
  end.

(** Two complete triple-quoted regions with code between them. *)
Definition two_regions_line : string :=
  triple_dq ++ "a" ++ triple_dq ++ " code " ++ triple_dq ++ "b" ++ triple_dq.

(** An opener that is not closed on its line. *)
Definition unterminated_line : string := "x = " ++ triple_dq ++ "start of block".

(** The end of a region carried over from the line before, then a new opener
    of the same kind. *)
Definition resumed_line : string :=
  "end" ++ triple_dq ++ " x " ++ triple_dq ++ "abc".

(** The text of a block that opens a region. *)
Definition opener_line : string := triple_dq ++ "abc".


(** ** Whole tokens *)



(** ** [getFormat] with its argument as the caller writes it *)

(** The [styles] argument of [getFormat]: [None], one name, or a list, tuple
    or set of names. *)
Inductive StylesArg : Type :=
| NoStyles
| OneStyle (s : string)
| ManyStyles (l : list string).

(** [styles if isinstance(styles, (list, tuple, set)) else [styles]], after
    the test [styles is not None]. *)
Definition normalise_styles (a : StylesArg) : list string :=
  match a with
  | NoStyles => []
  | OneStyle s => [ s ]
  | ManyStyles l => l
  end.

Definition getFormat_of (color : option string) (styles : StylesArg)
  : Style.QTextCharFormat :=
  Style.getFormat color (normalise_styles styles).

(** ** Shapes of format lists and of logs *)

Definition start_of (r : CompiledBlockRule) : QRegExp.t := fst (fst (fst r)).
Definition tag_of (r : CompiledBlockRule) : Z := snd (fst r).

(** The log of block rules none of which found its start pattern. *)
Definition failed_starts (rs : list CompiledBlockRule) : list Call :=
  map (fun r => StartSearch (tag_of r) 0 (-1)) rs.

(** The formats [fs] lie in a text of [n] characters from [off] on, left to
    right: each one is not empty, starts no earlier than the one before ends,
    ends inside the text and carries the style [fmt]. *)
Fixpoint chain (n : Z) (fmt : Style.key) (off : Z) (fs : list Span) : Prop :=
  match fs with
  | [] => True
  | (start, count, f) :: fs' =>
      off <= start /\ 1 <= count /\ start + count <= n /\ f = fmt
      /\ chain n fmt (start + count) fs'
  end.


(** * Facts about the matcher *)

Module MatcherFacts.
Import Chars Regex Matcher Productive.

Section Run.
Variable cs : bool.
Variable text : list ascii.

Lemma step_inv (ok : ascii -> bool) i c k x :
  step text ok i c k = Some x ->
  (i < List.length text)%nat /\ k (S i) c = Some x.
Proof.
  unfold step. destruct (nth_error text i) as [d|] eqn:E; [|discriminate].
  destruct (ok d); [|discriminate]. intros H. split; [|exact H].
  apply nth_error_Some. congruence.
Qed.

(** A successful match hands its continuation an end position inside the
    text, at least [minlen r] after the start. *)
Lemma m_bounds : forall r i c k x,
    (i <= List.length text)%nat ->
    m cs text r i c k = Some x ->
    exists j c', (i + minlen r <= j)%nat /\ (j <= List.length text)%nat
                 /\ k j c' = Some x.
Proof.
  induction r as [ | a | | neg items | | | | a IHa b IHb | a IHa b IHb
                 | a IHa | n a IHa ]; intros i c k x Hi H;
    cbn [m] in H.
  - exists i, c. simpl. repeat split; [lia|lia|exact H].
  - apply step_inv in H as [Hl H]. exists (S i), c. simpl.
    repeat split; [lia|lia|exact H].
  - apply step_inv in H as [Hl H]. exists (S i), c. simpl.
    repeat split; [lia|lia|exact H].
  - apply step_inv in H as [Hl H]. exists (S i), c. simpl.
    repeat split; [lia|lia|exact H].
  - destruct (boundary text i); [|discriminate].
    exists i, c. simpl. repeat split; [lia|lia|exact H].
  - destruct (i =? 0)%nat; [|discriminate].
    exists i, c. simpl. repeat split; [lia|lia|exact H].
  - destruct (i =? List.length text)%nat; [|discriminate].
    exists i, c. simpl. repeat split; [lia|lia|exact H].
  - apply IHa in H as (j1 & c1 & H1 & H2 & H); [|exact Hi].
    apply IHb in H as (j2 & c2 & H3 & H4 & H); [|exact H2].
    exists j2, c2. simpl. repeat split; [lia|lia|exact H].
  - destruct (m cs text a i c k) as [y|] eqn:E.
    + inversion H; subst y. apply IHa in E as (j & c' & H1 & H2 & E);
        [|exact Hi].
      exists j, c'. simpl. repeat split; [lia|lia|exact E].
    + apply IHb in H as (j & c' & H1 & H2 & H); [|exact Hi].
      exists j, c'. simpl. repeat split; [lia|lia|exact H].
  - remember (S (List.length text) - i)%nat as n eqn:Hn. clear Hn.
    revert i c Hi H.
    induction n as [|n IHn]; intros i c Hi H; simpl in H.
    + exists i, c. simpl. repeat split; [lia|lia|exact H].
    + match type of H with
      | match ?e with _ => _ end = _ => destruct e as [y|] eqn:E
      end.
      * inversion H; subst y.
        apply IHa in E as (j & c' & H1 & H2 & E); [|exact Hi].
        destruct (i <? j)%nat eqn:Hij; [|discriminate].
        apply IHn in E as (j2 & c2 & H3 & H4 & E); [|exact H2].
        exists j2, c2. simpl in *. repeat split; [lia|lia|exact E].
      * exists i, c. simpl. repeat split; [lia|lia|exact H].
  - apply IHa in H as (j & c' & H1 & H2 & H); [|exact Hi].
    exists j, ((n, (i, j)) :: c'). simpl. repeat split; [lia|lia|exact H].
Qed.

(** With [ends_with_group n r], the continuation moreover sees group [n]
    captured, non-empty and ending where the match ends. *)
Lemma m_ends_with_group : forall n r i c k x,
    ends_with_group n r = true ->
    (i <= List.length text)%nat ->
    m cs text r i c k = Some x ->
    exists p j c', (i <= p)%nat /\ (p < j)%nat /\ (j <= List.length text)%nat
                   /\ lookup n c' = Some (p, j) /\ k j c' = Some x.
Proof.
  intros n.
  induction r as [ | a | | neg items | | | | a IHa b IHb | a IHa b IHb
                 | a IHa | g a IHa ]; intros i c k x Hg Hi H;
    try discriminate Hg.
  - cbn [m] in H.
    assert (Hcases : (b = Eps /\ ends_with_group n a = true)
                     \/ ends_with_group n b = true).
    { simpl in Hg. destruct b; auto; discriminate. }
    destruct Hcases as [[Hb Ha] | Hb].
    + subst b. apply IHa in H as (p & j & c' & H1 & H2 & H3 & H4 & H);
        [|exact Ha|exact Hi].
      exists p, j, c'. auto.
    + apply m_bounds in H as (j1 & c1 & H1 & H2 & H); [|exact Hi].
      apply IHb in H as (p & j & c' & H3 & H4 & H5 & H6 & H);
        [|exact Hb|exact H2].
      exists p, j, c'. repeat split; try assumption. lia.
  - cbn [ends_with_group] in Hg. apply andb_prop in Hg as [Hk Hm].
    apply Nat.eqb_eq in Hk. subst g. apply Nat.leb_le in Hm.
    cbn [m] in H. apply m_bounds in H as (j & c' & H1 & H2 & H); [|exact Hi].
    exists i, j, ((n, (i, j)) :: c'). simpl. rewrite Nat.eqb_refl.
    repeat split; try assumption; lia.
Qed.

Lemma match_at_bounds r p mt :
  (p <= List.length text)%nat ->
  match_at cs text r p = Some mt ->
  m_start mt = p /\ (p + minlen r <= m_end mt)%nat
  /\ (m_end mt <= List.length text)%nat.
Proof.
  intros Hp H. unfold match_at in H.
  destruct (m cs text r p [] (fun j c => Some (j, c))) as [[j c]|] eqn:E;
    [|discriminate].
  inversion H; subst mt; simpl.
  apply m_bounds in E as (j' & c' & H1 & H2 & E); [|exact Hp].
  inversion E; subst. auto.
Qed.

Lemma match_at_group n r p mt :
  ends_with_group n r = true ->
  (p <= List.length text)%nat ->
  match_at cs text r p = Some mt ->
  exists a, lookup n (m_caps mt) = Some (a, m_end mt)
            /\ (p <= a)%nat /\ (a < m_end mt)%nat.
Proof.
  intros Hg Hp H. unfold match_at in H.
  destruct (m cs text r p [] (fun j c => Some (j, c))) as [[j c]|] eqn:E;
    [|discriminate].
  inversion H; subst mt; simpl.
  apply (m_ends_with_group n) in E as (a & j' & c' & H1 & H2 & H3 & H4 & E);
    [|exact Hg|exact Hp].
  inversion E; subst. exists a. auto.
Qed.

Lemma search_bounds r : forall n p mt,
    (p + n <= List.length text)%nat ->
    search cs text r n p = Some mt ->
    (p <= m_start mt)%nat /\ (m_start mt + minlen r <= m_end mt)%nat
    /\ (m_end mt <= List.length text)%nat
    /\ match_at cs text r (m_start mt) = Some mt.
Proof.
  induction n as [|n IHn]; intros p mt Hp H; simpl in H.
  - destruct (match_at cs text r p) as [y|] eqn:E; [|discriminate].
    inversion H; subst y.
    pose proof (@match_at_bounds r p _ ltac:(lia) E) as (H1 & H2 & H3).
    rewrite H1. repeat split; try lia. exact E.
  - destruct (match_at cs text r p) as [y|] eqn:E.
    + inversion H; subst y.
      pose proof (@match_at_bounds r p _ ltac:(lia) E) as (H1 & H2 & H3).
      rewrite H1. repeat split; try lia. exact E.
    + apply IHn in H; [|lia]. destruct H as (H1 & H2 & H3 & H4).
      repeat split; try lia. exact H4.
Qed.

End Run.

End MatcherFacts.

(** * Facts about QRegExp *)

Module QRegExpFacts.
Import Regex Matcher Productive MatcherFacts.

Lemma length_list_ascii (s : string) :
  List.length (list_ascii_of_string s) = String.length s.
Proof. induction s as [|a s IH]; simpl; [reflexivity | now rewrite IH]. Qed.

(** A match found from a non-negative offset lies between the offset and the
    end of the text. *)
Lemma indexIn_Some q text off mt :
  0 <= off ->
  QRegExp.indexIn q text off = Some mt ->
  exists r, parse (QRegExp.pattern q) = Some r
    /\ off <= Z.of_nat (m_start mt)
    /\ (m_start mt + minlen r <= m_end mt)%nat
    /\ Z.of_nat (m_end mt) <= len text
    /\ match_at (QRegExp.caseSensitive q) (list_ascii_of_string text) r
                (m_start mt) = Some mt.
Proof.
  intros Hoff H. unfold QRegExp.indexIn in H.
  destruct (parse (QRegExp.pattern q)) as [r|]; [|discriminate].
  replace (off <? 0) with false in H by (symmetry; apply Z.ltb_ge; lia).
  destruct ((0 <=? off) && (off <=? Z.of_nat (String.length text))) eqn:E;
    [|discriminate].
  apply andb_prop in E as [_ E]. apply Z.leb_le in E.
  apply search_bounds in H.
  - rewrite length_list_ascii in H. destruct H as (H1 & H2 & H3 & H4).
    exists r. unfold len. repeat split; try assumption; lia.
  - rewrite length_list_ascii. lia.
Qed.

(** What the caller of [indexIn] reads back. *)
Lemma indexIn_cases q text off :
  0 <= off ->
  (QRegExp.indexIn q text off = None)
  \/ (off <= QRegExp.index (QRegExp.indexIn q text off)
      /\ 0 <= QRegExp.matchedLength (QRegExp.indexIn q text off)
      /\ QRegExp.index (QRegExp.indexIn q text off)
         + QRegExp.matchedLength (QRegExp.indexIn q text off) <= len text
      /\ (nonempty q = true ->
          1 <= QRegExp.matchedLength (QRegExp.indexIn q text off))).
Proof.
  intros Hoff. destruct (QRegExp.indexIn q text off) as [mt|] eqn:E;
    [right | left; reflexivity].
  apply indexIn_Some in E as (r & Hr & H1 & H2 & H3 & _); [|exact Hoff].
  simpl. repeat split; try lia.
  unfold nonempty. rewrite Hr. intros Hn. apply Nat.leb_le in Hn. lia.
Qed.

(** An expression without empty matches finds nothing from the end of the
    text on. *)
Lemma indexIn_past_end q text off :
  nonempty q = true -> len text <= off ->
  QRegExp.indexIn q text off = None.
Proof.
  intros Hn Hoff.
  assert (H0 : 0 <= off) by (unfold len in Hoff; lia).
  destruct (indexIn_cases q text H0) as [H | (H1 & H2 & H3 & H4)];
    [exact H|].
  specialize (H4 Hn). lia.
Qed.

(** After a match of a line rule that passes [line_ok], the next search
    starts further to the right, at the end of the match. *)
Lemma line_progress q nth fmt text off mt :
  line_ok (q, nth, fmt) = true ->
  0 <= off ->
  QRegExp.indexIn q text off = Some mt ->
  off < QRegExp.pos (Some mt) nth + QRegExp.cap_len (Some mt) nth
  /\ QRegExp.pos (Some mt) nth + QRegExp.cap_len (Some mt) nth <= len text.
Proof.
  intros Hok Hoff H.
  apply indexIn_Some in H as (r & Hr & H1 & H2 & H3 & H4); [|exact Hoff].
  unfold line_ok in Hok. rewrite Hr in Hok.
  unfold QRegExp.pos, QRegExp.cap_len, QRegExp.captured.
  destruct (nth =? 0) eqn:E0.
  - apply Nat.leb_le in Hok. lia.
  - apply andb_prop in Hok as [Hpos Hg]. apply Z.ltb_lt in Hpos.
    replace (nth <? 0) with false by (symmetry; apply Z.ltb_ge; lia).
    assert (Hl : (m_start mt <= List.length (list_ascii_of_string text))%nat)
      by (rewrite length_list_ascii; unfold len in H3; lia).
    destruct (@match_at_group _ _ (Z.to_nat nth) r _ _ Hg Hl H4)
      as (a & Ha & Hb & Hc).
    rewrite Ha. lia.
Qed.


End QRegExpFacts.

(** * Facts about the two methods *)

Module HighlightFacts.
Import Productive QRegExpFacts.

Lemma geb_false a b : a < b -> (a >=? b) = false.
Proof. intros H. rewrite Z.geb_leb. apply Z.leb_gt. exact H. Qed.

Lemma geb_true a b : b <= a -> (a >=? b) = true.
Proof. intros H. apply Z.geb_le. exact H. Qed.

Lemma closed_run_refl b : closed_run b b.
Proof.
  exists [], []. rewrite !app_nil_r. repeat split. constructor.
Qed.

Lemma closed_run_trans b1 b2 b3 :
  closed_run b1 b2 -> closed_run b2 b3 -> closed_run b1 b3.
Proof.
  intros (e1 & f1 & H1 & H2 & H3) (e2 & f2 & H4 & H5 & H6).
  exists (e1 ++ e2), (f1 ++ f2). rewrite H5, H6, H2, H3, !app_assoc.
  repeat split. apply Forall_app. split; assumption.
Qed.

Lemma closed_open_trans text tag style s a b1 b2 b3 :
  closed_run b1 b2 -> open_run text tag style s a b2 b3 ->
  open_run text tag style s a b1 b3.
Proof.
  intros (e1 & f1 & H1 & H2 & H3) (e2 & f2 & H4 & H5 & H6 & H7 & H8 & H9).
  exists (e1 ++ e2), (f1 ++ f2). rewrite H5, H6, H2, H3, !app_assoc.
  repeat split; try assumption; try lia.
  apply Forall_app. split; assumption.
Qed.

Lemma closed_run_called c b : multiline_closed c -> closed_run b (called c b).
Proof.
  intros Hc. exists [c], []. simpl. rewrite app_nil_r.
  repeat split. constructor; [exact Hc | constructor].
Qed.

Lemma closed_run_setFormat st ct f b : closed_run b (setFormat st ct f b).
Proof.
  exists [], [(st, ct, f)]. simpl. rewrite app_nil_r.
  repeat split. constructor.
Qed.

Lemma closed_run_setState n b : closed_run b (setCurrentBlockState n b).
Proof.
  exists [], []. simpl. rewrite !app_nil_r. repeat split. constructor.
Qed.

Section MultiLine.
Variable text : string.
Variable previousBlockState : Z.
Variables start end_ : QRegExp.t.
Variable in_state : Z.
Variable style : Style.key.
Hypothesis start_nonempty : nonempty start = true.
Hypothesis end_nonempty : nonempty end_ = true.

Lemma multiline_while_done fuel add s b :
  s < 0 -> multiline_while text start end_ in_state style fuel add s b = Some b.
Proof.
  intros Hs. assert (E : (s >=? 0) = false) by (apply geb_false; lia).
  destruct fuel; simpl; rewrite E; reflexivity.
Qed.

(** The loop ends within [len text - start_index + 1] iterations; it
    either closed every region it went through, or stopped right after
    the one iteration in which the end pattern was not found. *)
Lemma multiline_while_spec : forall fuel add s b,
    s < 0 \/ (0 <= add /\ s <= len text /\ len text - s < Z.of_nat fuel) ->
    exists b',
      multiline_while text start end_ in_state style fuel add s b = Some b'
      /\ ((closed_run b b' /\ (s < 0 -> b' = b)
           /\ (0 <= s -> currentBlockState b' = 0))
          \/ exists s', open_run text in_state style s' add b b').
Proof.
  induction fuel as [|fuel IH]; intros add s b Hpre.
  - assert (Hs : s < 0) by lia.
    exists b. split; [apply multiline_while_done; exact Hs|].
    left. repeat split; [apply closed_run_refl | lia].
  - destruct (Z_lt_ge_dec s 0) as [Hs | Hs].
    { exists b. split; [apply multiline_while_done; exact Hs|].
      left. repeat split; [apply closed_run_refl | lia]. }
    destruct Hpre as [Hpre | (Hadd & Hlen & Hfuel)]; [lia|].
    assert (E : (s >=? 0) = true) by (apply Z.geb_le; lia).
    cbn [multiline_while]. rewrite E.
    destruct (indexIn_cases end_ text (off := s + add) ltac:(lia))
      as [Hnone | (H1 & H2 & H3 & H4)].
    + (* the end pattern is not found *)
      rewrite Hnone. cbn [QRegExp.index QRegExp.matchedLength].
      replace (-1 >=? add) with false by (symmetry; apply geb_false; lia).
      replace (s + (len text - s + add)) with (len text + add) by lia.
      rewrite (indexIn_past_end start text (off := len text + add)
                 start_nonempty ltac:(lia)).
      cbn [QRegExp.index]. rewrite multiline_while_done by lia.
      eexists. split; [reflexivity|]. right. exists s.
      exists [], []. simpl.
      repeat split; try lia;
        [constructor | rewrite <- app_assoc; reflexivity].
    + (* the end pattern is found: the region closes *)
      specialize (H4 end_nonempty).
      set (em := QRegExp.indexIn end_ text (s + add)) in *.
      replace (QRegExp.index em >=? add) with true
        by (symmetry; apply Z.geb_le; lia).
      set (length := QRegExp.index em - s + add + QRegExp.matchedLength em).
      set (b1 := setFormat s length style
                   (setCurrentBlockState 0
                      (called (EndSearch in_state s add (QRegExp.index em)) b))).
      assert (Hb1 : closed_run b b1).
      { eapply closed_run_trans;
          [apply (closed_run_called
                    (EndSearch in_state s add (QRegExp.index em)));
           simpl; lia|].
        eapply closed_run_trans;
          [apply closed_run_setState | apply closed_run_setFormat]. }
      set (sm := QRegExp.indexIn start text (s + length)).
      set (b2 := called (StartSearch in_state (s + length) (QRegExp.index sm)) b1).
      assert (Hb2 : closed_run b b2).
      { eapply closed_run_trans; [exact Hb1|].
        apply closed_run_called. exact I. }
      assert (Hnext : QRegExp.index sm < 0
                      \/ (0 <= add /\ QRegExp.index sm <= len text
                          /\ len text - QRegExp.index sm < Z.of_nat fuel)).
      { destruct (indexIn_cases start text (off := s + length)
                    ltac:(unfold length; lia))
          as [Hn | (G1 & G2 & G3 & G4)].
        - left. unfold sm. rewrite Hn. simpl. lia.
        - right. fold sm in G1, G2, G3. unfold length in G1.
          repeat split; lia. }
      destruct (IH add (QRegExp.index sm) b2 Hnext)
        as (b' & Hrun & Hres).
      exists b'. split; [exact Hrun|].
      destruct Hres as [(Hc & Hsame & Hzero) | (s' & Ho)].
      * left. repeat split; [|lia|].
        -- eapply closed_run_trans; [exact Hb2 | exact Hc].
        -- intros _. destruct (Z_lt_ge_dec (QRegExp.index sm) 0) as [Hd|Hd].
           ++ rewrite (Hsame Hd). reflexivity.
           ++ apply Hzero. lia.
      * right. exists s'. eapply closed_open_trans; [exact Hb2 | exact Ho].
Qed.

Lemma highlightMultilineBlock_spec fuel b :
  len text < Z.of_nat fuel ->
  exists b',
    highlightMultilineBlock text previousBlockState start end_ in_state
                            style fuel b
    = Some (currentBlockState b' =? in_state, b')
    /\ ((closed_run b b'
         /\ (currentBlockState b' = currentBlockState b
             \/ currentBlockState b' = 0))
        \/ exists s a, open_run text in_state style s a b b').
Proof.
  intros Hfuel. unfold highlightMultilineBlock.
  assert (Hlen : 0 <= len text) by (unfold len; lia).
  destruct (previousBlockState =? in_state).
  - destruct (multiline_while_spec fuel (add := 0) (s := 0) b
                ltac:(right; lia)) as (b' & Hrun & Hres).
    rewrite Hrun. exists b'. split; [reflexivity|].
    destruct Hres as [(Hc & _ & Hz) | (s' & Ho)].
    + left. split; [exact Hc | right; apply Hz; lia].
    + right. exists s', 0. exact Ho.
  - set (sm := QRegExp.indexIn start text 0).
    set (b0 := called (StartSearch in_state 0 (QRegExp.index sm)) b).
    assert (Hb0 : closed_run b b0) by (apply closed_run_called; exact I).
    assert (Hpre : QRegExp.index sm < 0
                   \/ (0 <= QRegExp.matchedLength sm
                       /\ QRegExp.index sm <= len text
                       /\ len text - QRegExp.index sm < Z.of_nat fuel)).
    { destruct (indexIn_cases start text (off := 0) ltac:(lia))
        as [Hn | (G1 & G2 & G3 & _)].
      - left. unfold sm. rewrite Hn. simpl. lia.
      - right. fold sm in G1, G2, G3. lia. }
    destruct (multiline_while_spec fuel b0 Hpre) as (b' & Hrun & Hres).
    rewrite Hrun. exists b'. split; [reflexivity|].
    destruct Hres as [(Hc & Hsame & Hz) | (s' & Ho)].
    + left. split; [eapply closed_run_trans; [exact Hb0 | exact Hc]|].
      destruct (Z_lt_ge_dec (QRegExp.index sm) 0) as [Hd|Hd].
      * left. rewrite (Hsame Hd). reflexivity.
      * right. apply Hz. lia.
    + right. exists s', (QRegExp.matchedLength sm).
      eapply closed_open_trans; [exact Hb0 | exact Ho].
Qed.

End MultiLine.

Section Block.
Variable text : string.
Variable previousBlockState : Z.

(** The loop over the block rules ends; it stops at the first rule whose
    call reports the line still inside its region, and then the state of
    the block is the tag of that rule. *)
Lemma block_loop_spec fuel : forall rs b,
    forallb block_ok rs = true ->
    len text < Z.of_nat fuel ->
    exists flag b',
      block_loop text previousBlockState fuel rs b = Some (flag, b')
      /\ (closed_run b b'
          \/ (flag = true
              /\ exists start end_ tag sty s a,
                  In (start, end_, tag, sty) rs
                  /\ open_run text tag sty s a b b'))
      /\ (flag = true ->
          In (currentBlockState b')
             (map (fun r : CompiledBlockRule => snd (fst r)) rs)).
Proof.
  induction rs as [|[[[start end_] tag] sty] rs IH]; intros b Hok Hfuel.
  - exists false, b. simpl. repeat split.
    + left. apply closed_run_refl.
    + discriminate.
  - simpl in Hok. apply andb_prop in Hok as [Hr Hok].
    apply andb_prop in Hr as [Hs He].
    destruct (@highlightMultilineBlock_spec text previousBlockState
                start end_ tag sty Hs He fuel b Hfuel)
      as (b1 & Hrun & Hres).
    cbn [block_loop]. rewrite Hrun.
    destruct (currentBlockState b1 =? tag) eqn:Eflag.
    + exists true, b1. repeat split.
      * destruct Hres as [[Hc _] | (s & a & Ho)]; [left; exact Hc|].
        right. split; [reflexivity|].
        exists start, end_, tag, sty, s, a. split; [left; reflexivity|].
        exact Ho.
      * intros _. left. simpl. apply Z.eqb_eq in Eflag. auto.
    + destruct Hres as [[Hc _] | (s & a & Ho)].
      * destruct (IH b1 Hok Hfuel) as (flag & b' & Hrun' & Hres' & Hst).
        exists flag, b'. repeat split; [exact Hrun'| |].
        -- destruct Hres' as [Hc' | (Hf & st' & en' & tg' & sy' & s & a & Hin & Ho)].
           ++ left. eapply closed_run_trans; [exact Hc | exact Hc'].
           ++ right. split; [exact Hf|].
              exists st', en', tg', sy', s, a.
              split; [right; exact Hin|].
              eapply closed_open_trans; [exact Hc | exact Ho].
        -- intros Hf. right. apply Hst. exact Hf.
      * destruct Ho as (evs & fs & _ & _ & _ & Hst & _).
        apply Z.eqb_neq in Eflag. contradiction.
Qed.

(** The loop of a line rule ends when each match moves the search on. *)
Lemma line_while_spec q nth fmt :
  line_ok (q, nth, fmt) = true ->
  forall fuel off b,
    0 <= off ->
    len text - off < Z.of_nat fuel ->
    exists b',
      line_while text fuel q nth fmt (QRegExp.indexIn q text off) b = Some b'
      /\ line_run b b'.
Proof.
  intros Hok. induction fuel as [|fuel IH]; intros off b Hoff Hfuel.
  - destruct (QRegExp.indexIn q text off) as [mt|] eqn:E.
    + apply indexIn_Some in E as (r & _ & H1 & H2 & H3 & _); [|exact Hoff].
      lia.
    + exists b. split; [reflexivity|].
      exists [], []. rewrite !app_nil_r. repeat split. constructor.
  - destruct (QRegExp.indexIn q text off) as [mt|] eqn:E.
    + pose proof (line_progress q nth fmt text Hok Hoff E) as [P1 P2].
      pose proof E as E'.
      apply indexIn_Some in E' as (r & _ & H1 & _); [|exact Hoff].
      cbn [line_while].
      replace (QRegExp.index (Some mt) >=? 0) with true
        by (symmetry; apply geb_true; simpl; lia).
      set (off' := QRegExp.pos (Some mt) nth + QRegExp.cap_len (Some mt) nth)
        in *.
      match goal with
      | |- exists b', line_while _ _ _ _ _ _ ?b0 = _ /\ _ =>
          destruct (IH off' b0 ltac:(lia) ltac:(lia))
          as (b' & Hrun & (evs & fs & F1 & F2 & F3 & F4))
      end.
      exists b'. split; [exact Hrun|].
      simpl in F2, F3, F4. rewrite <- app_assoc in F2, F3.
      simpl in F2, F3.
      eexists _, _. repeat split; [ | exact F2 | exact F3 | exact F4].
      constructor; [exact I | exact F1].
    + exists b. split; [reflexivity|].
      exists [], []. rewrite !app_nil_r. repeat split. constructor.
Qed.

Lemma rules_loop_spec fuel : forall rs b,
    forallb line_ok rs = true ->
    len text < Z.of_nat fuel ->
    exists b', rules_loop text fuel rs b = Some b' /\ line_run b b'.
Proof.
  induction rs as [|[[q nth] fmt] rs IH]; intros b Hok Hfuel.
  - exists b. split; [reflexivity|].
    exists [], []. rewrite !app_nil_r. repeat split. constructor.
  - simpl in Hok. apply andb_prop in Hok as [Hr Hok].
    cbn [rules_loop].
    match goal with
    | |- exists b', match line_while _ _ _ _ _ _ ?b0 with _ => _ end = _ /\ _ =>
        destruct (line_while_spec q nth fmt Hr fuel (off := 0) b0
                    ltac:(lia) ltac:(lia))
        as (b1 & Hrun & (e1 & f1 & F1 & F2 & F3 & F4))
    end.
    rewrite Hrun.
    destruct (IH b1 Hok Hfuel) as (b' & Hrun' & (e2 & f2 & G1 & G2 & G3 & G4)).
    exists b'. split; [exact Hrun'|].
    simpl in F2, F3, F4.
    rewrite F2 in G2. rewrite F3 in G3. rewrite F4 in G4.
    repeat rewrite <- app_assoc in G2. repeat rewrite <- app_assoc in G3.
    simpl in G2.
    eexists _, _. repeat split; [ | exact G2 | exact G3 | exact G4].
    constructor; [exact I|]. apply Forall_app. split; assumption.
Qed.

(** [highlightBlock] on a productive rule set: it returns; the state it
    leaves is 0 or the tag of a rule; and the log either holds no failed
    end search, or ends with the one that left a region open. *)
Lemma highlightBlock_spec self stored fuel :
  productive self = true ->
  len text < Z.of_nat fuel ->
  exists b,
    highlightBlock text previousBlockState fuel self stored = Some b
    /\ (currentBlockState b = 0
        \/ In (currentBlockState b) (registered self))
    /\ (Forall closes (calls b)
        \/ exists start end_ tag sty s a,
            In (start, end_, tag, sty) (blockRules self)
            /\ open_run text tag sty s a (entry stored) b).
Proof.
  intros Hp Hfuel. unfold productive in Hp.
  apply andb_prop in Hp as [Hb Hl].
  destruct (block_loop_spec fuel (blockRules self) (entry stored) Hb Hfuel)
    as (flag & b1 & Hrun & Hres & Hst).
  unfold highlightBlock. fold (entry stored). rewrite Hrun.
  assert (Hweak : forall evs, Forall multiline_closed evs ->
                              Forall closes evs).
  { intros evs. apply Forall_impl. intros [ | | ]; simpl; tauto. }
  destruct flag.
  - exists b1. repeat split.
    + right. apply Hst. reflexivity.
    + destruct Hres as [(evs & fs & H1 & H2 & _) | [_ Ho]].
      * left. rewrite H2. simpl. apply Hweak. exact H1.
      * right. exact Ho.
  - destruct (rules_loop_spec fuel (rules self) b1 Hl Hfuel)
      as (b2 & Hrun2 & (e2 & f2 & G1 & G2 & G3 & G4)).
    rewrite Hrun2. eexists. split; [reflexivity|]. split.
    + left. reflexivity.
    + left. simpl. rewrite G2.
      destruct Hres as [(evs & fs & H1 & H2 & _) | [Hf _]];
        [|discriminate].
      rewrite H2. simpl. apply Forall_app. split.
      * apply Hweak. exact H1.
      * revert G1. apply Forall_impl. intros [ | | ]; simpl; tauto.
Qed.

End Block.

(** ** The stored state of the block

    The state the block holds on entry is read by the test at the end of
    [highlightMultilineBlock] when the loop of that call did not run.  It
    makes no difference as long as it is not the tag of a rule. *)

Section Stored.
Variable text : string.
Variable previousBlockState : Z.

Lemma multiline_while_overwrites start end_ tag sty fuel add s n b :
  0 <= s ->
  multiline_while text start end_ tag sty fuel add s
                  (setCurrentBlockState n b)
  = multiline_while text start end_ tag sty fuel add s b.
Proof.
  intros Hs. assert (E : (s >=? 0) = true) by (apply geb_true; exact Hs).
  destruct fuel as [|fuel]; cbn [multiline_while]; rewrite E;
    [reflexivity|].
  destruct (QRegExp.index (QRegExp.indexIn end_ text (s + add)) >=? add);
    reflexivity.
Qed.

Lemma highlightMultilineBlock_agree tags start end_ tag sty fuel n1 n2 b :
  In tag tags -> ~ In n1 tags -> ~ In n2 tags ->
  agree tags
        (highlightMultilineBlock text previousBlockState start end_ tag
                                 sty fuel (setCurrentBlockState n1 b))
        (highlightMultilineBlock text previousBlockState start end_ tag
                                 sty fuel (setCurrentBlockState n2 b)).
Proof.
  intros Ht H1 H2. unfold highlightMultilineBlock.
  destruct (previousBlockState =? tag).
  - left. rewrite !multiline_while_overwrites by lia. reflexivity.
  - set (sm := QRegExp.indexIn start text 0).
    change (called (StartSearch tag 0 (QRegExp.index sm))
                   (setCurrentBlockState n1 b))
      with (setCurrentBlockState n1
              (called (StartSearch tag 0 (QRegExp.index sm)) b)).
    change (called (StartSearch tag 0 (QRegExp.index sm))
                   (setCurrentBlockState n2 b))
      with (setCurrentBlockState n2
              (called (StartSearch tag 0 (QRegExp.index sm)) b)).
    destruct (Z_lt_ge_dec (QRegExp.index sm) 0) as [Hd | Hd].
    + right. rewrite !multiline_while_done by exact Hd.
      eexists _, n1, n2. repeat split; try assumption.
      * simpl. replace (n1 =? tag) with false; [reflexivity|].
        symmetry. apply Z.eqb_neq. intros ->. contradiction.
      * simpl. replace (n2 =? tag) with false; [reflexivity|].
        symmetry. apply Z.eqb_neq. intros ->. contradiction.
    + left. rewrite !multiline_while_overwrites by lia. reflexivity.
Qed.

Lemma block_loop_agree tags fuel : forall rs n1 n2 b,
    incl (map (fun r : CompiledBlockRule => snd (fst r)) rs) tags ->
    ~ In n1 tags -> ~ In n2 tags ->
    agree tags
          (block_loop text previousBlockState fuel rs
                      (setCurrentBlockState n1 b))
          (block_loop text previousBlockState fuel rs
                      (setCurrentBlockState n2 b)).
Proof.
  induction rs as [|[[[start end_] tag] sty] rs IH]; intros n1 n2 b Hin H1 H2.
  - right. exists b, n1, n2. simpl. auto.
  - cbn [block_loop].
    assert (Ht : In tag tags) by (apply Hin; left; reflexivity).
    assert (Hin' : incl (map (fun r : CompiledBlockRule => snd (fst r)) rs)
                        tags).
    { intros x Hx. apply Hin. right. exact Hx. }
    destruct (@highlightMultilineBlock_agree tags start end_ tag sty fuel
                n1 n2 b Ht H1 H2)
      as [Heq | (b' & m1 & m2 & G1 & G2 & E1 & E2)].
    + rewrite Heq. left. reflexivity.
    + rewrite E1, E2. apply IH; assumption.
Qed.

Lemma line_while_state q nth fmt n : forall fuel pm b,
    line_while text fuel q nth fmt pm (setCurrentBlockState n b)
    = option_map (setCurrentBlockState n) (line_while text fuel q nth fmt pm b).
Proof.
  induction fuel as [|fuel IH]; intros pm b; cbn [line_while];
    destruct (QRegExp.index pm >=? 0); try reflexivity.
  match goal with
  | |- line_while _ _ _ _ _ ?pm' (called ?c (setFormat ?a ?l ?f _)) = _ =>
      exact (IH pm' (called c (setFormat a l f b)))
  end.
Qed.

Lemma rules_loop_state n fuel : forall rs b,
    rules_loop text fuel rs (setCurrentBlockState n b)
    = option_map (setCurrentBlockState n) (rules_loop text fuel rs b).
Proof.
  induction rs as [|[[q nth] fmt] rs IH]; intros b; cbn [rules_loop];
    [reflexivity|].
  change (called (LineSearch (QRegExp.pattern q) 0
                    (QRegExp.index (QRegExp.indexIn q text 0)))
                 (setCurrentBlockState n b))
    with (setCurrentBlockState n
            (called (LineSearch (QRegExp.pattern q) 0
                       (QRegExp.index (QRegExp.indexIn q text 0))) b)).
  rewrite line_while_state.
  destruct (line_while text fuel q nth fmt (QRegExp.indexIn q text 0)
              (called (LineSearch (QRegExp.pattern q) 0
                         (QRegExp.index (QRegExp.indexIn q text 0))) b));
    simpl; [apply IH | reflexivity].
Qed.

Lemma stored_state_irrelevant self fuel n1 n2 :
  ~ In n1 (registered self) -> ~ In n2 (registered self) ->
  highlightBlock text previousBlockState fuel self n1
  = highlightBlock text previousBlockState fuel self n2.
Proof.
  intros H1 H2. unfold highlightBlock.
  change {| currentBlockState := n1; formats := []; calls := [] |}
    with (setCurrentBlockState n1 (entry 0)).
  change {| currentBlockState := n2; formats := []; calls := [] |}
    with (setCurrentBlockState n2 (entry 0)).
  destruct (@block_loop_agree (registered self) fuel (blockRules self)
              n1 n2 (entry 0) (incl_refl _) H1 H2)
    as [Heq | (b' & m1 & m2 & _ & _ & E1 & E2)].
  - rewrite Heq. reflexivity.
  - rewrite E1, E2, !rules_loop_state.
    destruct (rules_loop text fuel (rules self) b'); reflexivity.
Qed.

End Stored.

End HighlightFacts.

(** * The rule table of the class *)

Module DefaultFacts.
Import Productive.

Lemma default_productive cs : productive (default_highlighter cs) = true.
Proof. destruct cs; vm_compute; reflexivity. Qed.




Lemma fuel_enough text : len text < Z.of_nat (fuel_of text).
Proof. unfold len, fuel_of. lia. Qed.

End DefaultFacts.

(** * Formats applied in order *)

Module FormatFacts.



End FormatFacts.

(** * The properties of the highlighter *)

Import Productive.

(** C10. On a rule set whose loops terminate, highlighting a line returns,
    whatever the text, the state of the previous block and the state stored in
    the block, and the state it leaves is 0 or one of the registered
    region-state tags; for the rule table of the class these are 1 and 2. *)
Theorem exit_state_registered
        (self : PythonHighlighter) (text : string) (prev stored : Z)
        (Hp : productive self = true) :
  exists b,
    highlightBlock text prev (fuel_of text) self stored = Some b
    /\ (currentBlockState b = 0 \/ In (currentBlockState b) (registered self)).
Proof.
  destruct (@HighlightFacts.highlightBlock_spec text prev self stored
              (fuel_of text) Hp (DefaultFacts.fuel_enough text)) as (b & Hrun & Hst & _).
  exists b. split; assumption.
Qed.

Lemma exit_state_registered_witness :
  productive (default_highlighter true) = true
  /\ exists b,
      highlightBlock unterminated_line 0 (fuel_of unterminated_line)
                     (default_highlighter true) 7 = Some b
      /\ (currentBlockState b = 0 \/ In (currentBlockState b) [1; 2]).
Proof.
  split; [vm_compute; reflexivity|].
  apply (exit_state_registered (default_highlighter true) unterminated_line 0 7).
  vm_compute; reflexivity.
Defined.






(** C2.  The state stored in the block is read before it is set: the same
    text with the same state of the previous block gives, on a block never
    highlighted, the formats of the line rules and state 0, and on a block
    whose stored state is 1, no format at all and state 1.  A block is left
    with the stored state 1 by its own earlier highlighting, when its text
    was an unterminated opener. *)
Theorem stored_state_changes_the_result (cs : bool) :
  option_map currentBlockState
             (highlightBlock opener_line 0 (fuel_of opener_line)
                             (default_highlighter cs) (-1))
  = Some 1
  /\ spans_and_state
    (highlightBlock "x = 1" 0 (fuel_of "x = 1") (default_highlighter cs) (-1))
  = Some ([ (2, 1, Style.operator); (4, 1, Style.numbers);
            (4, 1, Style.numbers) ], 0)
  /\ spans_and_state
       (highlightBlock "x = 1" 0 (fuel_of "x = 1") (default_highlighter cs) 1)
     = Some ([], 1)
  /\ calls_of
       (highlightBlock "x = 1" 0 (fuel_of "x = 1") (default_highlighter cs) 1)
     = Some [ StartSearch 1 0 (-1) ].
Proof. destruct cs; repeat split; vm_compute; reflexivity. Qed.

(** C3.  On the line with two complete regions, the two formats set by the
    multi-line rule have length 10, not the 7 characters of a region: the
    first runs three characters into the text between the regions, which
    keeps the style of the region after the line rules have run, and the
    second runs past the end of the line.  The state left is 0. *)
Theorem closed_region_span_too_long (cs : bool) :
  spans_and_state
    (highlightBlock two_regions_line 0 (fuel_of two_regions_line)
                    (default_highlighter cs) (-1))
  = Some ([ (0, 10, Style.stringBlock); (13, 10, Style.stringBlock);
            (0, 2, Style.string); (2, 3, Style.string); (5, 2, Style.string);
            (13, 2, Style.string); (15, 3, Style.string);
            (18, 2, Style.string) ], 0)
  /\ len two_regions_line = 20
  /\ QRegExp.index (QRegExp.indexIn (QRegExp.QRegExp triple_dq cs)
                                    two_regions_line 3) = 4
  /\ QRegExp.matchedLength (QRegExp.indexIn (QRegExp.QRegExp triple_dq cs)
                                            two_regions_line 3) = 3
  /\ map (styleAt 20 [ (0, 10, Style.stringBlock); (13, 10, Style.stringBlock);
                       (0, 2, Style.string); (2, 3, Style.string);
                       (5, 2, Style.string); (13, 2, Style.string);
                       (15, 3, Style.string); (18, 2, Style.string) ])
         [7; 8; 9; 10; 11; 12]
     = [ Some Style.stringBlock; Some Style.stringBlock;
         Some Style.stringBlock; None; None; None ].
Proof. destruct cs; repeat split; vm_compute; reflexivity. Qed.

(** C4.  On a line that resumes an open region, the skip stays 0 for the
    regions started later on the line: the opener found at 9, three characters
    long, is searched for its end from 9 on, so that it is taken for its own
    end and the line is left in state 0. *)
Theorem resumed_line_keeps_skip_zero (cs : bool) :
  option_map (fun b => (firstn 4 (calls b), currentBlockState b))
             (highlightBlock resumed_line 1 (fuel_of resumed_line)
                             (default_highlighter cs) (-1))
  = Some ([ EndSearch 1 0 0 3; StartSearch 1 6 9; EndSearch 1 9 0 9;
            StartSearch 1 12 (-1) ], 0)
  /\ QRegExp.matchedLength
       (QRegExp.indexIn (QRegExp.QRegExp triple_dq cs) resumed_line 6) = 3
  /\ option_map (fun b => firstn 2 (formats b))
                (highlightBlock resumed_line 1 (fuel_of resumed_line)
                                (default_highlighter cs) (-1))
     = Some [ (0, 6, Style.stringBlock); (9, 3, Style.stringBlock) ].
Proof. destruct cs; repeat split; vm_compute; reflexivity. Qed.

(** ** Construction *)

Lemma fold_add_rule (cs : bool) (rule_list : list Rule) :
  forall self,
    fold_left (add_rule cs) rule_list self
    = {| rules := rules self ++ flat_map (compile_line cs) rule_list;
         blockRules := blockRules self ++ flat_map (compile_block cs) rule_list;
         caseSensitive := caseSensitive self |}.
Proof.
  induction rule_list as [|r rule_list IH]; intros self; simpl.
  - rewrite !app_nil_r. destruct self; reflexivity.
  - rewrite IH. destruct r; simpl; rewrite <- ?app_assoc, ?app_nil_r; reflexivity.
Qed.




(** C7.  [__init__] never assigns [caseSensitive], and [buildRules] reads it:
    constructing the highlighter raises AttributeError. *)
Theorem init_raises_AttributeError :
  __init__ = inl (AttributeError "caseSensitive")
  /\ forall rule_list append,
      buildRules {| rules := []; blockRules := []; caseSensitive := None |}
                 rule_list append
      = inl (AttributeError "caseSensitive").
Proof.
  split; [reflexivity|]. intros rule_list [|]; reflexivity.
Qed.

(** ** Numeric literals *)




(** ** Keywords *)

Module KeywordFacts.
Import Chars Regex Matcher.



Section Lit.
Variable cs : bool.
Variable text : list ascii.



End Lit.



End KeywordFacts.



(** * Further properties of the two methods and of the construction *)

Module StepFacts.
Import QRegExpFacts HighlightFacts.

Lemma tags_registered self :
  registered self = map tag_of (blockRules self).
Proof. reflexivity. Qed.

(** A rule that neither resumes nor finds its start pattern leaves the block
    as it is, but for the search it logs. *)
Lemma highlightMultilineBlock_no_start text prev start end_ tag sty fuel b :
  prev <> tag ->
  QRegExp.indexIn start text 0 = None ->
  highlightMultilineBlock text prev start end_ tag sty fuel b
  = Some (currentBlockState b =? tag, called (StartSearch tag 0 (-1)) b).
Proof.
  intros Hp Hs. unfold highlightMultilineBlock.
  replace (prev =? tag) with false by (symmetry; apply Z.eqb_neq; exact Hp).
  rewrite Hs. cbn [QRegExp.index QRegExp.matchedLength].
  rewrite multiline_while_done by lia. reflexivity.
Qed.

(** The rules that come first and find nothing are passed over. *)
Lemma block_loop_skip text prev fuel rest : forall pre b,
    Forall (fun r => QRegExp.indexIn (start_of r) text 0 = None) pre ->
    ~ In prev (map tag_of pre) ->
    ~ In (currentBlockState b) (map tag_of pre) ->
    block_loop text prev fuel (pre ++ rest) b
    = block_loop text prev fuel rest
                 {| currentBlockState := currentBlockState b;
                    formats := formats b;
                    calls := calls b ++ failed_starts pre |}.
Proof.
  induction pre as [|[[[start end_] tag] sty] pre IH]; intros b Hall Hp Hst.
  - simpl. rewrite app_nil_r. destruct b; reflexivity.
  - inversion Hall as [|r l Hr Hall']; subst. cbn [start_of fst] in Hr.
    cbn [map tag_of fst snd In] in Hp, Hst. cbn [app block_loop].
    assert (Hp1 : prev <> tag) by (intros E; apply Hp; left; congruence).
    assert (Hp2 : ~ In prev (map tag_of pre)) by tauto.
    assert (Hs1 : currentBlockState b <> tag)
      by (intros E; apply Hst; left; congruence).
    assert (Hs2 : ~ In (currentBlockState b) (map tag_of pre)) by tauto.
    rewrite highlightMultilineBlock_no_start; [|exact Hp1|exact Hr].
    replace (currentBlockState b =? tag) with false
      by (symmetry; apply Z.eqb_neq; exact Hs1).
    rewrite IH; [| exact Hall' | exact Hp2 | exact Hs2].
    cbn [called currentBlockState formats calls failed_starts map tag_of fst snd].
    rewrite <- app_assoc. reflexivity.
Qed.



End StepFacts.

(** X1.  Building a rule list and then appending a second one gives what
    building the two lists in a row gives; a build without [append] forgets
    the rules that were there. *)
Theorem buildRules_append_composes
        (self : PythonHighlighter) (l1 l2 : list Rule) (append cs : bool)
        (Hflag : caseSensitive self = Some cs) :
  exists h1,
    buildRules self l1 append = inr h1
    /\ buildRules h1 l2 true = buildRules self (l1 ++ l2) append
    /\ buildRules h1 l2 false = buildRules (with_flag cs) l2 false.
Proof.
  unfold buildRules.
  destruct append; cbn [caseSensitive]; rewrite Hflag, !fold_add_rule;
    (eexists; split; [reflexivity|]);
    cbn [caseSensitive rules blockRules with_flag]; rewrite ?Hflag, !fold_add_rule;
    cbn [caseSensitive rules blockRules]; rewrite ?Hflag, !flat_map_app, <- !app_assoc;
    split; reflexivity.
Qed.

Lemma buildRules_append_composes_witness :
  caseSensitive (with_flag true) = Some true
  /\ exists h1,
      buildRules (with_flag true) (firstn 63 default_rules) false = inr h1
      /\ buildRules h1 (skipn 63 default_rules) true
         = inr (default_highlighter true).
Proof.
  split; [reflexivity|].
  destruct (buildRules_append_composes
              (with_flag true) (firstn 63 default_rules)
              (skipn 63 default_rules) false (cs := true) eq_refl)
    as (h1 & H1 & H2 & _).
  exists h1. split; [exact H1|]. rewrite H2.
  vm_compute. reflexivity.
Defined.

(** X2.  The state of the previous block counts only as a tag: two previous
    states that are tags of no rule (such as -1 for the first block and 0)
    give the same result. *)
Theorem previous_state_counts_only_as_tag
        (self : PythonHighlighter) (text : string) (fuel : nat)
        (stored p1 p2 : Z)
        (H1 : ~ In p1 (registered self)) (H2 : ~ In p2 (registered self)) :
  highlightBlock text p1 fuel self stored
  = highlightBlock text p2 fuel self stored.
Proof.
  unfold highlightBlock.
  assert (Hloop : forall rs b,
             ~ In p1 (map tag_of rs) -> ~ In p2 (map tag_of rs) ->
             block_loop text p1 fuel rs b = block_loop text p2 fuel rs b).
  { induction rs as [|[[[start end_] tag] sty] rs IH]; intros b G1 G2;
      [reflexivity|].
    cbn [map tag_of fst snd In] in G1, G2. cbn [block_loop].
    unfold highlightMultilineBlock.
    replace (p1 =? tag) with false
      by (symmetry; apply Z.eqb_neq; intros E; apply G1; left; congruence).
    replace (p2 =? tag) with false
      by (symmetry; apply Z.eqb_neq; intros E; apply G2; left; congruence).
    destruct (multiline_while text start end_ tag sty fuel
                (QRegExp.matchedLength (QRegExp.indexIn start text 0))
                (QRegExp.index (QRegExp.indexIn start text 0))
                (called (StartSearch tag 0
                           (QRegExp.index (QRegExp.indexIn start text 0))) b))
      as [b'|]; [|reflexivity].
    destruct (currentBlockState b' =? tag); [reflexivity|].
    apply IH; tauto. }
  rewrite (Hloop (blockRules self)); [reflexivity | exact H1 | exact H2].
Qed.

Lemma previous_state_counts_only_as_tag_witness :
  ~ In (-1) (registered (default_highlighter true))
  /\ ~ In 0 (registered (default_highlighter true))
  /\ highlightBlock two_regions_line (-1) (fuel_of two_regions_line)
                    (default_highlighter true) (-1)
     = highlightBlock two_regions_line 0 (fuel_of two_regions_line)
                      (default_highlighter true) (-1).
Proof.
  assert (G1 : ~ In (-1) (registered (default_highlighter true)))
    by (vm_compute; intros [E | [E | []]]; discriminate).
  assert (G2 : ~ In 0 (registered (default_highlighter true)))
    by (vm_compute; intros [E | [E | []]]; discriminate).
  split; [exact G1|]. split; [exact G2|].
  exact (@previous_state_counts_only_as_tag
           (default_highlighter true) two_regions_line
           (fuel_of two_regions_line) (-1) (-1) 0 G1 G2).
Defined.

(** X3.  The state stored in the block counts only as a tag: two stored
    states that are tags of no rule give the same result, for every text and
    every state of the previous block. *)
Theorem stored_state_counts_only_as_tag
        (self : PythonHighlighter) (text : string) (prev : Z) (fuel : nat)
        (n1 n2 : Z)
        (H1 : ~ In n1 (registered self)) (H2 : ~ In n2 (registered self)) :
  highlightBlock text prev fuel self n1 = highlightBlock text prev fuel self n2.
Proof. apply HighlightFacts.stored_state_irrelevant; assumption. Qed.

Lemma stored_state_counts_only_as_tag_witness :
  ~ In (-1) (registered (default_highlighter true))
  /\ ~ In 0 (registered (default_highlighter true))
  /\ highlightBlock "x = 1" 0 (fuel_of "x = 1") (default_highlighter true) (-1)
     = highlightBlock "x = 1" 0 (fuel_of "x = 1") (default_highlighter true) 0.
Proof.
  assert (G1 : ~ In (-1) (registered (default_highlighter true)))
    by (vm_compute; intros [E | [E | []]]; discriminate).
  assert (G2 : ~ In 0 (registered (default_highlighter true)))
    by (vm_compute; intros [E | [E | []]]; discriminate).
  split; [exact G1|]. split; [exact G2|].
  exact (@stored_state_counts_only_as_tag
           (default_highlighter true) "x = 1" 0 (fuel_of "x = 1") (-1) 0 G1 G2).
Defined.

(** X4.  When the state stored in the block is the tag of a rule, the line
    does not resume that rule, and neither that rule nor an earlier one finds
    its start pattern, the call returns after the start searches: no format is
    set, no line rule runs and the stored tag stays the state of the block. *)
Theorem stale_tag_freezes_line
        (self : PythonHighlighter) (text : string) (prev : Z) (fuel : nat)
        (pre rest : list CompiledBlockRule)
        (start end_ : QRegExp.t) (tag : Z) (sty : Style.key)
        (Hrules : blockRules self = pre ++ (start, end_, tag, sty) :: rest)
        (Hpre : Forall (fun r => QRegExp.indexIn (start_of r) text 0 = None) pre)
        (Hstart : QRegExp.indexIn start text 0 = None)
        (Hprev : ~ In prev (map tag_of pre) /\ prev <> tag)
        (Htag : ~ In tag (map tag_of pre)) :
  highlightBlock text prev fuel self tag
  = Some {| currentBlockState := tag;
            formats := [];
            calls := failed_starts (pre ++ [ (start, end_, tag, sty) ]) |}.
Proof.
  destruct Hprev as [Hp1 Hp2]. unfold highlightBlock. rewrite Hrules.
  rewrite StepFacts.block_loop_skip; [|exact Hpre|exact Hp1|exact Htag].
  cbn [block_loop currentBlockState formats calls app].
  rewrite StepFacts.highlightMultilineBlock_no_start; [|exact Hp2|exact Hstart].
  cbn [currentBlockState]. rewrite Z.eqb_refl.
  unfold called, failed_starts. cbn [currentBlockState formats calls].
  rewrite map_app. reflexivity.
Qed.

Lemma stale_tag_freezes_line_witness :
  exists h,
    h = default_highlighter true
    /\ highlightBlock "x = 1" 0 (fuel_of "x = 1") h 2
       = Some {| currentBlockState := 2; formats := [];
                 calls := [ StartSearch 1 0 (-1); StartSearch 2 0 (-1) ] |}.
Proof.
  exists (default_highlighter true). split; [reflexivity|].
  apply (@stale_tag_freezes_line
           (default_highlighter true) "x = 1" 0 (fuel_of "x = 1")
           [ (QRegExp.QRegExp triple_dq true, QRegExp.QRegExp triple_dq true,
              1, Style.stringBlock) ]
           []
           (QRegExp.QRegExp triple_sq true) (QRegExp.QRegExp triple_sq true)
           2 Style.stringBlock).
  - vm_compute. reflexivity.
  - repeat constructor.
  - vm_compute. reflexivity.
  - split; [simpl; intros [E | []]; discriminate | discriminate].
  - simpl. intros [E | []]. discriminate.
Defined.





(** X7.  When no multi-line rule applies (none is resumed, none finds its
    start pattern, and the state stored in the block is the tag of none), the
    multi-line pass sets no format, and the call is the scan of the line
    rules over the whole line followed by the state 0. *)
Theorem no_region_plain_scan
        (self : PythonHighlighter) (text : string) (prev stored : Z)
        (fuel : nat)
        (Hstarts : Forall (fun r => QRegExp.indexIn (start_of r) text 0 = None)
                          (blockRules self))
        (Hprev : ~ In prev (registered self))
        (Hstored : ~ In stored (registered self)) :
  highlightBlock text prev fuel self stored
  = option_map (setCurrentBlockState 0)
               (rules_loop text fuel (rules self)
                           {| currentBlockState := stored;
                              formats := [];
                              calls := failed_starts (blockRules self) |}).
Proof.
  unfold highlightBlock.
  rewrite <- (app_nil_r (blockRules self)) at 1.
  rewrite StepFacts.block_loop_skip; [|exact Hstarts|exact Hprev|exact Hstored].
  cbn [block_loop currentBlockState formats calls app].
  destruct (rules_loop text fuel (rules self)
              {| currentBlockState := stored; formats := [];
                 calls := failed_starts (blockRules self) |}); reflexivity.
Qed.

Lemma no_region_plain_scan_witness :
  spans_and_state
    (highlightBlock "x = 1" (-1) (fuel_of "x = 1") (default_highlighter true) 0)
  = Some ([ (2, 1, Style.operator); (4, 1, Style.numbers);
            (4, 1, Style.numbers) ], 0).
Proof.
  rewrite (@no_region_plain_scan (default_highlighter true) "x = 1" (-1) 0
                                 (fuel_of "x = 1")).
  - vm_compute. reflexivity.
  - repeat constructor.
  - vm_compute. intros [E | [E | []]]; discriminate.
  - vm_compute. intros [E | [E | []]]; discriminate.
Defined.

Module ClosingFacts.
Import QRegExpFacts HighlightFacts.

(** The first iteration of the loop when the end pattern is found, and the
    formats of the iterations that follow. *)
Lemma multiline_while_first_found text start end_ tag sty fuel add s b em :
  nonempty start = true -> nonempty end_ = true ->
  0 <= s -> 0 <= add ->
  len text - s <= Z.of_nat fuel ->
  QRegExp.indexIn end_ text (s + add) = Some em ->
  exists b' more,
    multiline_while text start end_ tag sty (S fuel) add s b = Some b'
    /\ formats b'
       = formats b
         ++ (s, QRegExp.index (Some em) - s + add
                + QRegExp.matchedLength (Some em), sty) :: more.
Proof.
  intros Hs He Hs0 Ha0 Hfuel Hend.
  pose proof Hend as Hb.
  apply indexIn_Some in Hb as (r & Hr & H1 & H2 & H3 & _); [|lia].
  assert (Hlen : 1 <= QRegExp.matchedLength (Some em)).
  { unfold nonempty in He. rewrite Hr in He. apply Nat.leb_le in He.
    simpl. lia. }
  cbn [multiline_while].
  replace (s >=? 0) with true by (symmetry; apply geb_true; exact Hs0).
  rewrite Hend.
  set (e := QRegExp.index (Some em)) in *.
  set (l := QRegExp.matchedLength (Some em)) in *.
  assert (He1 : s + add <= e) by (unfold e; simpl; lia).
  replace (e >=? add) with true by (symmetry; apply geb_true; lia).
  set (b2 := called _ _).
  set (sm := QRegExp.indexIn start text (s + (e - s + add + l))).
  assert (Hnext : QRegExp.index sm < 0
                  \/ (0 <= add /\ QRegExp.index sm <= len text
                      /\ len text - QRegExp.index sm < Z.of_nat fuel)).
  { destruct (indexIn_cases start text (off := s + (e - s + add + l))
                ltac:(lia)) as [Hn | (G1 & G2 & G3 & _)].
    - left. unfold sm. rewrite Hn. simpl. lia.
    - right. fold sm in G1, G2, G3. lia. }
  destruct (@multiline_while_spec text start end_ tag sty Hs He fuel add
              (QRegExp.index sm) b2 Hnext) as (b' & Hrun & Hres).
  exists b'.
  assert (Hfs : exists fs, formats b' = formats b2 ++ fs).
  { destruct Hres as [((evs & fs & _ & _ & Hf) & _) | (s' & evs & fs & _ & _ & Hf & _)].
    - exists fs. exact Hf.
    - eexists. exact Hf. }
  destruct Hfs as (fs & Hf). exists fs. split; [exact Hrun|].
  rewrite Hf. unfold b2. simpl. rewrite <- app_assoc. reflexivity.
Qed.

End ClosingFacts.

(** X8.  A resumed region that closes on the line is formatted exactly: the
    first format of the call runs from the first character of the line
    through the last character of the end match. *)
Theorem resumed_region_closes_exactly
        (text : string) (start end_ : QRegExp.t) (tag : Z) (sty : Style.key)
        (b : Block) (em : Matcher.Match)
        (Hstart : nonempty start = true) (Hend_ : nonempty end_ = true)
        (Hend : QRegExp.indexIn end_ text 0 = Some em) :
  exists flag b' more,
    highlightMultilineBlock text tag start end_ tag sty (fuel_of text) b
    = Some (flag, b')
    /\ formats b'
       = formats b
         ++ (0, Z.of_nat (Matcher.m_end em), sty) :: more.
Proof.
  unfold highlightMultilineBlock. rewrite Z.eqb_refl.
  destruct (@ClosingFacts.multiline_while_first_found
              text start end_ tag sty (String.length text) 0 0 b em
              Hstart Hend_ ltac:(lia) ltac:(lia)
              ltac:(unfold len; lia) Hend) as (b' & more & Hrun & Hf).
  unfold fuel_of. rewrite Hrun. exists (currentBlockState b' =? tag), b', more.
  split; [reflexivity|]. rewrite Hf. simpl. repeat f_equal. lia.
Qed.

Lemma resumed_region_closes_exactly_witness :
  exists flag b' more,
    highlightMultilineBlock ("end of block" ++ triple_dq) 1
                            (QRegExp.QRegExp triple_dq true)
                            (QRegExp.QRegExp triple_dq true)
                            1 Style.stringBlock
                            (fuel_of ("end of block" ++ triple_dq)) (entry 0)
    = Some (flag, b')
    /\ formats b' = (0, 15, Style.stringBlock) :: more.
Proof.
  destruct (QRegExp.indexIn (QRegExp.QRegExp triple_dq true)
                            ("end of block" ++ triple_dq) 0) as [em|] eqn:E;
    [|vm_compute in E; discriminate].
  destruct (@resumed_region_closes_exactly
              ("end of block" ++ triple_dq)
              (QRegExp.QRegExp triple_dq true) (QRegExp.QRegExp triple_dq true)
              1 Style.stringBlock (entry 0) em)
    as (flag & b' & more & Hrun & Hf).
  - vm_compute. reflexivity.
  - vm_compute. reflexivity.
  - exact E.
  - exists flag, b', more. split; [exact Hrun|].
    rewrite Hf. vm_compute in E. injection E as <-. reflexivity.
Defined.

(** X9.  A freshly opened region that closes on the line gets a format whose
    count is the length of the region, from the start match through the end
    match, plus the length of the start match. *)
Theorem fresh_region_count
        (text : string) (prev : Z) (start end_ : QRegExp.t) (tag : Z)
        (sty : Style.key) (b : Block) (sm em : Matcher.Match)
        (Hprev : prev <> tag)
        (Hstart_ : nonempty start = true) (Hend_ : nonempty end_ = true)
        (Hstart : QRegExp.indexIn start text 0 = Some sm)
        (Hend : QRegExp.indexIn end_ text (Z.of_nat (Matcher.m_end sm))
                = Some em) :
  exists flag b' more,
    highlightMultilineBlock text prev start end_ tag sty (fuel_of text) b
    = Some (flag, b')
    /\ formats b'
       = formats b
         ++ (Z.of_nat (Matcher.m_start sm),
             (Z.of_nat (Matcher.m_end em) - Z.of_nat (Matcher.m_start sm))
             + (Z.of_nat (Matcher.m_end sm) - Z.of_nat (Matcher.m_start sm)),
             sty) :: more.
Proof.
  unfold highlightMultilineBlock.
  replace (prev =? tag) with false by (symmetry; apply Z.eqb_neq; exact Hprev).
  rewrite Hstart.
  pose proof Hstart as Hb.
  apply QRegExpFacts.indexIn_Some in Hb as (r & Hr & H1 & H2 & H3 & _); [|lia].
  cbn [QRegExp.index QRegExp.matchedLength].
  assert (Hoff : Z.of_nat (Matcher.m_start sm)
                 + (Z.of_nat (Matcher.m_end sm) - Z.of_nat (Matcher.m_start sm))
                 = Z.of_nat (Matcher.m_end sm)) by lia.
  destruct (@ClosingFacts.multiline_while_first_found
              text start end_ tag sty (String.length text)
              (Z.of_nat (Matcher.m_end sm) - Z.of_nat (Matcher.m_start sm))
              (Z.of_nat (Matcher.m_start sm))
              (called (StartSearch tag 0 (Z.of_nat (Matcher.m_start sm))) b) em
              Hstart_ Hend_ ltac:(lia) ltac:(lia)
              ltac:(unfold len; lia) ltac:(rewrite Hoff; exact Hend))
    as (b' & more & Hrun & Hf).
  unfold fuel_of. rewrite Hrun. exists (currentBlockState b' =? tag), b', more.
  split; [reflexivity|]. rewrite Hf. cbn [QRegExp.index QRegExp.matchedLength].
  match goal with
  | |- _ ++ (_, ?x, _) :: _ = _ ++ (_, ?y, _) :: _ => replace x with y by lia
  end.
  reflexivity.
Qed.

Lemma fresh_region_count_witness :
  exists flag b' more,
    highlightMultilineBlock two_regions_line 0
                            (QRegExp.QRegExp triple_dq true)
                            (QRegExp.QRegExp triple_dq true)
                            1 Style.stringBlock
                            (fuel_of two_regions_line) (entry 0)
    = Some (flag, b')
    /\ formats b' = (0, 7 + 3, Style.stringBlock) :: more.
Proof.
  destruct (QRegExp.indexIn (QRegExp.QRegExp triple_dq true)
                            two_regions_line 0) as [sm|] eqn:Es;
    [|vm_compute in Es; discriminate].
  destruct (QRegExp.indexIn (QRegExp.QRegExp triple_dq true)
                            two_regions_line 3) as [em|] eqn:Ee;
    [|vm_compute in Ee; discriminate].
  assert (Hsm : sm = {| Matcher.m_start := 0; Matcher.m_end := 3;
                        Matcher.m_caps := [] |})
    by (vm_compute in Es; injection Es as <-; reflexivity).
  assert (Hem : em = {| Matcher.m_start := 4; Matcher.m_end := 7;
                        Matcher.m_caps := [] |})
    by (vm_compute in Ee; injection Ee as <-; reflexivity).
  destruct (@fresh_region_count
              two_regions_line 0
              (QRegExp.QRegExp triple_dq true) (QRegExp.QRegExp triple_dq true)
              1 Style.stringBlock (entry 0) sm em)
    as (flag & b' & more & Hrun & Hf).
  - discriminate.
  - vm_compute. reflexivity.
  - vm_compute. reflexivity.
  - exact Es.
  - rewrite Hsm. exact Ee.
  - exists flag, b', more. split; [exact Hrun|].
    rewrite Hf, Hsm, Hem. reflexivity.
Defined.

Module DivergenceFacts.
Import QRegExpFacts HighlightFacts.

(** Every match in the empty text is the empty match at 0. *)
Lemma match_in_empty_text q off mt :
  0 <= off ->
  QRegExp.indexIn q "" off = Some mt ->
  QRegExp.index (Some mt) = 0 /\ QRegExp.matchedLength (Some mt) = 0.
Proof.
  intros Hoff H. apply indexIn_Some in H as (r & _ & H1 & H2 & H3 & _);
    [|exact Hoff].
  unfold len in H3. simpl in *. lia.
Qed.

(** On the empty text, with a start pattern that matches it, the loop comes
    back to the state it started from. *)
Lemma multiline_while_empty_text start end_ tag sty sm :
  QRegExp.indexIn start "" 0 = Some sm ->
  forall fuel b,
    multiline_while "" start end_ tag sty fuel 0 0 b = None.
Proof.
  intros Hs. induction fuel as [|fuel IH]; intros b; [reflexivity|].
  cbn [multiline_while]. change (0 >=? 0) with true. cbv iota.
  change (0 + 0) with 0.
  destruct (match_in_empty_text start (off := 0) ltac:(lia) Hs) as [Hi _].
  destruct (QRegExp.indexIn end_ "" 0) as [em|] eqn:Ee.
  - destruct (match_in_empty_text end_ (off := 0) ltac:(lia) Ee) as [E1 E2].
    rewrite E1, E2. change (0 >=? 0) with true. cbv iota.
    change (0 + (0 - 0 + 0 + 0)) with 0. rewrite Hs, Hi. apply IH.
  - cbn [QRegExp.index QRegExp.matchedLength].
    change (-1 >=? 0) with false. cbv iota.
    change (0 + (len "" - 0 + 0)) with 0. rewrite Hs, Hi. apply IH.
Qed.

(** The calls logged by the loop of a line rule are kept. *)
Lemma line_while_calls_grow text q nth fmt : forall fuel pm b b',
    line_while text fuel q nth fmt pm b = Some b' ->
    exists evs, calls b' = calls b ++ evs.
Proof.
  induction fuel as [|fuel IH]; intros pm b b' H; cbn [line_while] in H;
    destruct (QRegExp.index pm >=? 0); try discriminate;
    try (injection H as <-; exists []; rewrite app_nil_r; reflexivity).
  apply IH in H as (evs & H). simpl in H. rewrite <- app_assoc in H.
  eexists. exact H.
Qed.

(** Every line rule of the list makes its first search, from 0, and that
    search stays in the log. *)
Lemma rules_loop_first_searches text fuel : forall rs b b',
    rules_loop text fuel rs b = Some b' ->
    (exists evs, calls b' = calls b ++ evs)
    /\ forall q nth fmt,
        In (q, nth, fmt) rs ->
        In (LineSearch (QRegExp.pattern q) 0
                       (QRegExp.index (QRegExp.indexIn q text 0)))
           (calls b').
Proof.
  induction rs as [|[[q0 nth0] fmt0] rs IH]; intros b b' H.
  - injection H as <-. split; [exists []; rewrite app_nil_r; reflexivity|].
    intros q nth fmt [].
  - cbn [rules_loop] in H.
    destruct (line_while text fuel q0 nth0 fmt0 (QRegExp.indexIn q0 text 0)
                (called (LineSearch (QRegExp.pattern q0) 0
                           (QRegExp.index (QRegExp.indexIn q0 text 0))) b))
      as [b1|] eqn:E; [|discriminate].
    apply line_while_calls_grow in E as (e1 & E). simpl in E.
    apply IH in H as [(e2 & H2) Hall]. split.
    + rewrite H2, E, <- !app_assoc. eexists. reflexivity.
    + intros q nth fmt [Heq | Hin].
      * injection Heq as <- <- <-. rewrite H2, E.
        apply in_or_app. left. apply in_or_app. left.
        apply in_or_app. right. left. reflexivity.
      * exact (Hall q nth fmt Hin).
Qed.

End DivergenceFacts.

(** X10.  An empty line never finishes when the start pattern of the first
    multi-line rule matches the empty text: whatever the fuel, whatever the
    end pattern, the state of the previous block and the state stored, the
    loop of [highlightMultilineBlock] is still running. *)
Theorem empty_start_match_hangs_on_empty_line
        (self : PythonHighlighter) (prev stored : Z) (fuel : nat)
        (start end_ : QRegExp.t) (tag : Z) (sty : Style.key)
        (rest : list CompiledBlockRule)
        (Hrules : blockRules self = (start, end_, tag, sty) :: rest)
        (Hmatch : QRegExp.indexIn start "" 0 <> None) :
  highlightBlock "" prev fuel self stored = None.
Proof.
  destruct (QRegExp.indexIn start "" 0) as [sm|] eqn:Hs; [|contradiction].
  unfold highlightBlock. rewrite Hrules. cbn [block_loop].
  unfold highlightMultilineBlock.
  destruct (DivergenceFacts.match_in_empty_text start (off := 0)
              ltac:(lia) Hs) as [Hi Hl].
  destruct (prev =? tag).
  - rewrite (DivergenceFacts.multiline_while_empty_text start end_ tag sty Hs).
    reflexivity.
  - rewrite Hs, Hi, Hl.
    rewrite (DivergenceFacts.multiline_while_empty_text start end_ tag sty Hs).
    reflexivity.
Qed.

Lemma empty_start_match_hangs_on_empty_line_witness :
  highlightBlock "" 0 1000
                 {| rules := [];
                    blockRules := [ (QRegExp.QRegExp "x*" true,
                                     QRegExp.QRegExp "y" true, 1,
                                     Style.comment) ];
                    caseSensitive := Some true |}
                 (-1) = None.
Proof.
  apply (@empty_start_match_hangs_on_empty_line
           _ 0 (-1) 1000 (QRegExp.QRegExp "x*" true)
           (QRegExp.QRegExp "y" true) 1 Style.comment []).
  - reflexivity.
  - vm_compute. discriminate.
Defined.

(** X11.  The scan of the line rules never finishes when, for one of them,
    the search that follows its first match finds that match again: a match
    whose formatted capture is empty (an expression that matches the empty
    string) or took no part in the match. *)
Theorem stuck_line_rule_hangs
        (text : string) (fuel : nat) (rs : list CompiledLineRule) (b : Block)
        (q : QRegExp.t) (nth : Z) (fmt : Style.key) (mt : Matcher.Match)
        (Hrule : In (q, nth, fmt) rs)
        (Hfirst : QRegExp.indexIn q text 0 = Some mt)
        (Hnext : QRegExp.indexIn q text
                                 (QRegExp.pos (Some mt) nth
                                  + QRegExp.cap_len (Some mt) nth) = Some mt) :
  rules_loop text fuel rs b = None.
Proof.
  assert (Hloop : forall n b0, line_while text n q nth fmt (Some mt) b0 = None).
  { induction n as [|n IH]; intros b0; cbn [line_while];
      replace (QRegExp.index (Some mt) >=? 0) with true
      by (symmetry; apply HighlightFacts.geb_true; simpl; lia);
      [reflexivity|].
    rewrite Hnext. apply IH. }
  revert b. induction rs as [|[[q0 nth0] fmt0] rs IH]; intros b;
    [contradiction|].
  cbn [rules_loop]. destruct Hrule as [Heq | Hin].
  - injection Heq as -> -> ->. rewrite Hfirst, Hloop. reflexivity.
  - destruct (line_while text fuel q0 nth0 fmt0 (QRegExp.indexIn q0 text 0) _);
      [apply IH; exact Hin | reflexivity].
Qed.

Lemma stuck_line_rule_hangs_witness :
  rules_loop "b" 1000
             [ (QRegExp.QRegExp "=" true, 0, Style.operator);
               (QRegExp.QRegExp "(a)|b" true, 1, Style.keyword) ]
             (entry 0) = None
  /\ rules_loop "abc" 1000 [ (QRegExp.QRegExp "x*" true, 0, Style.keyword) ]
                (entry 0) = None.
Proof.
  split.
  - apply (@stuck_line_rule_hangs "b" 1000 _ (entry 0)
             (QRegExp.QRegExp "(a)|b" true) 1 Style.keyword
             {| Matcher.m_start := 0; Matcher.m_end := 1;
                Matcher.m_caps := [] |}).
    + right. left. reflexivity.
    + vm_compute. reflexivity.
    + vm_compute. reflexivity.
  - apply (@stuck_line_rule_hangs "abc" 1000 _ (entry 0)
             (QRegExp.QRegExp "x*" true) 0 Style.keyword
             {| Matcher.m_start := 0; Matcher.m_end := 0;
                Matcher.m_caps := [] |}).
    + left. reflexivity.
    + vm_compute. reflexivity.
    + vm_compute. reflexivity.
Defined.

Module ScanFacts.
Import Regex Matcher QRegExpFacts MatcherFacts HighlightFacts.

(** The capture a line rule formats, when the rule passes [line_ok]: it
    starts at or after the offset of the search, is not empty and ends inside
    the text. *)
Lemma line_span q nth fmt text off mt :
  line_ok (q, nth, fmt) = true ->
  0 <= off ->
  QRegExp.indexIn q text off = Some mt ->
  off <= QRegExp.pos (Some mt) nth
  /\ 1 <= QRegExp.cap_len (Some mt) nth
  /\ QRegExp.pos (Some mt) nth + QRegExp.cap_len (Some mt) nth <= len text.
Proof.
  intros Hok Hoff H.
  apply indexIn_Some in H as (r & Hr & H1 & H2 & H3 & H4); [|exact Hoff].
  unfold line_ok in Hok. rewrite Hr in Hok.
  unfold QRegExp.pos, QRegExp.cap_len, QRegExp.captured.
  destruct (nth =? 0) eqn:E0.
  - apply Nat.leb_le in Hok. lia.
  - apply andb_prop in Hok as [Hpos Hg]. apply Z.ltb_lt in Hpos.
    replace (nth <? 0) with false by (symmetry; apply Z.ltb_ge; lia).
    assert (Hl : (m_start mt <= List.length (list_ascii_of_string text))%nat)
      by (rewrite length_list_ascii; unfold len in H3; lia).
    destruct (@match_at_group _ _ (Z.to_nat nth) r _ _ Hg Hl H4)
      as (a & Ha & Hb & Hc).
    rewrite Ha. lia.
Qed.

Lemma line_while_chain text q nth fmt :
  line_ok (q, nth, fmt) = true ->
  forall fuel off b,
    0 <= off ->
    len text - off < Z.of_nat fuel ->
    exists b' fs,
      line_while text fuel q nth fmt (QRegExp.indexIn q text off) b = Some b'
      /\ formats b' = formats b ++ fs
      /\ chain (len text) fmt off fs.
Proof.
  intros Hok. induction fuel as [|fuel IH]; intros off b Hoff Hfuel.
  - destruct (QRegExp.indexIn q text off) as [mt|] eqn:E.
    + apply indexIn_Some in E as (r & _ & H1 & H2 & H3 & _); [|exact Hoff].
      lia.
    + exists b, []. rewrite app_nil_r. repeat split.
  - destruct (QRegExp.indexIn q text off) as [mt|] eqn:E.
    + destruct (line_span q nth fmt text Hok Hoff E) as (P1 & P2 & P3).
      pose proof E as E'.
      apply indexIn_Some in E' as (r & _ & H1 & _); [|exact Hoff].
      cbn [line_while].
      replace (QRegExp.index (Some mt) >=? 0) with true
        by (symmetry; apply geb_true; simpl; lia).
      set (p := QRegExp.pos (Some mt) nth) in *.
      set (l := QRegExp.cap_len (Some mt) nth) in *.
      match goal with
      | |- exists b' fs, line_while _ _ _ _ _ _ ?b0 = _ /\ _ =>
          destruct (IH (p + l) b0 ltac:(lia) ltac:(lia))
          as (b' & fs & Hrun & Hf & Hc)
      end.
      exists b', ((p, l, fmt) :: fs). split; [exact Hrun|]. split.
      * rewrite Hf. simpl. rewrite <- app_assoc. reflexivity.
      * simpl. repeat split; try lia. exact Hc.
    + exists b, []. rewrite app_nil_r. repeat split.
Qed.

End ScanFacts.

(** X12.  The formats of one line rule whose formatted capture is never
    empty and ends its match: the loop of the rule ends, and the formats it
    sets follow each other from left to right without overlap, each one not
    empty, inside the line and in the style of the rule. *)
Theorem line_rule_spans_in_order
        (text : string) (q : QRegExp.t) (nth : Z) (fmt : Style.key) (b : Block)
        (Hok : line_ok (q, nth, fmt) = true) :
  exists b' fs,
    line_while text (fuel_of text) q nth fmt (QRegExp.indexIn q text 0) b
    = Some b'
    /\ formats b' = formats b ++ fs
    /\ chain (len text) fmt 0 fs.
Proof.
  apply ScanFacts.line_while_chain;
    [exact Hok | lia | unfold len, fuel_of; lia].
Qed.

Lemma line_rule_spans_in_order_witness :
  exists b' fs,
    line_while "a = b == c" (fuel_of "a = b == c")
               (QRegExp.QRegExp "=" true) 0 Style.operator
               (QRegExp.indexIn (QRegExp.QRegExp "=" true) "a = b == c" 0)
               (entry 0)
    = Some b'
    /\ formats b' = [] ++ fs
    /\ chain 10 Style.operator 0 fs.
Proof.
  apply (@line_rule_spans_in_order "a = b == c" (QRegExp.QRegExp "=" true) 0
                                   Style.operator (entry 0)).
  vm_compute. reflexivity.
Defined.

(** X13.  A line left in state 0, on a rule set whose loops terminate and
    where 0 is the tag of no rule, was scanned by every line rule from its
    first character: also the characters of the regions that closed on the
    line. *)
Theorem state_zero_means_scanned
        (self : PythonHighlighter) (text : string) (prev stored : Z)
        (Hp : productive self = true)
        (Hzero : ~ In 0 (registered self)) :
  exists b,
    highlightBlock text prev (fuel_of text) self stored = Some b
    /\ (currentBlockState b = 0 ->
        forall q nth fmt,
          In (q, nth, fmt) (rules self) ->
          In (LineSearch (QRegExp.pattern q) 0
                         (QRegExp.index (QRegExp.indexIn q text 0)))
             (calls b)).
Proof.
  pose proof Hp as Hp'. unfold productive in Hp'.
  apply andb_prop in Hp' as [Hb Hl].
  destruct (@HighlightFacts.block_loop_spec text prev (fuel_of text)
              (blockRules self) (entry stored) Hb
              (DefaultFacts.fuel_enough text))
    as (flag & b1 & Hrun & _ & Hst).
  unfold highlightBlock. fold (entry stored). rewrite Hrun.
  destruct flag.
  - exists b1. split; [reflexivity|]. intros H0.
    exfalso. apply Hzero. rewrite <- H0. apply Hst. reflexivity.
  - destruct (@HighlightFacts.rules_loop_spec text (fuel_of text) (rules self)
                b1 Hl (DefaultFacts.fuel_enough text)) as (b2 & Hrun2 & _).
    rewrite Hrun2. eexists. split; [reflexivity|].
    intros _ q nth fmt Hin.
    destruct (DivergenceFacts.rules_loop_first_searches _ _ _ _ Hrun2)
      as [_ Hall].
    exact (Hall q nth fmt Hin).
Qed.

Lemma state_zero_means_scanned_witness :
  exists b,
    highlightBlock two_regions_line 0 (fuel_of two_regions_line)
                   (default_highlighter true) (-1) = Some b
    /\ In (LineSearch "\bclass\b" 0 (-1)) (calls b).
Proof.
  destruct (@state_zero_means_scanned (default_highlighter true)
              two_regions_line 0 (-1))
    as (b & Hrun & Hall).
  - vm_compute. reflexivity.
  - vm_compute. intros [E | [E | []]]; discriminate.
  - exists b. split; [exact Hrun|].
    assert (H0 : currentBlockState b = 0)
      by (vm_compute in Hrun; injection Hrun as <-; reflexivity).
    apply (Hall H0 (QRegExp.QRegExp "\bclass\b" true) 0 Style.keyword).
    vm_compute. auto 10.
Defined.

(** ** getFormat *)


(** X15.  From a list, tuple or set of style names the format takes only
    whether [bold] and whether [italic] are among them: bold is set exactly
    when [bold] is a member, italic exactly when [italic] is, so that the
    order of the names, repetitions and other names make no difference. *)
Theorem getFormat_by_membership (color : option string) (l : list string) :
  (Style.fontBold (getFormat_of color (ManyStyles l)) = true <-> In "bold" l)
  /\ (Style.fontItalic (getFormat_of color (ManyStyles l)) = true
      <-> In "italic" l)
  /\ forall l',
      (In "bold" l <-> In "bold" l') ->
      (In "italic" l <-> In "italic" l') ->
      getFormat_of color (ManyStyles l) = getFormat_of color (ManyStyles l').
Proof.
  assert (Hmem : forall name l0,
             existsb (String.eqb name) l0 = true <-> In name l0).
  { intros name l0. rewrite existsb_exists. split.
    - intros (x & Hx & E). apply String.eqb_eq in E. subst x. exact Hx.
    - intros H. exists name. split; [exact H | apply String.eqb_refl]. }
  unfold getFormat_of, Style.getFormat.
  cbn [normalise_styles Style.fontBold Style.fontItalic].
  split; [apply Hmem|]. split; [apply Hmem|].
  intros l' Hb Hi. f_equal.
  - apply eq_true_iff_eq. rewrite !Hmem. exact Hb.
  - apply eq_true_iff_eq. rewrite !Hmem. exact Hi.
Qed.

Lemma getFormat_by_membership_witness :
  getFormat_of (Some "#d200f7") (ManyStyles [ "italic"; "bold" ])
  = getFormat_of (Some "#d200f7")
                 (ManyStyles [ "bold"; "underline"; "italic"; "bold" ]).
Proof.
  apply (proj2 (proj2 (getFormat_by_membership (Some "#d200f7")
                                               [ "italic"; "bold" ]))).
  - simpl. tauto.
  - simpl. tauto.
Defined.

(** ** Where the formats are set *)

Module PlacedFacts.
Import QRegExpFacts HighlightFacts.







End PlacedFacts.



(** X17.  [buildRules] compiles every rule of its list with the flag of the
    instance, both patterns of a multi-line rule alike, and stores as many
    rules as the list holds; the rules kept when appending stay as they were
    compiled, with the flag of their own build. *)
Theorem buildRules_flag_on_new_rules
        (self h : PythonHighlighter) (rule_list : list Rule) (append cs : bool)
        (Hflag : caseSensitive self = Some cs)
        (Hbuild : buildRules self rule_list append = inr h) :
  caseSensitive h = Some cs
  /\ (forall q nth fmt,
         In (q, nth, fmt) (rules h) ->
         QRegExp.caseSensitive q = cs
         \/ (append = true /\ In (q, nth, fmt) (rules self)))
  /\ (forall s e tag sty,
         In (s, e, tag, sty) (blockRules h) ->
         (QRegExp.caseSensitive s = cs /\ QRegExp.caseSensitive e = cs)
         \/ (append = true /\ In (s, e, tag, sty) (blockRules self)))
  /\ (List.length (rules h) + List.length (blockRules h)
      = (if append
         then List.length (rules self) + List.length (blockRules self)
         else 0)
        + List.length rule_list)%nat.
Proof.
  assert (Hnew1 : forall q nth fmt,
             In (q, nth, fmt) (flat_map (compile_line cs) rule_list) ->
             QRegExp.caseSensitive q = cs).
  { intros q nth fmt Hin. apply in_flat_map in Hin as ([p i f | s e t f] & _ & Hin);
      simpl in Hin; [|contradiction].
    destruct Hin as [E | []]. injection E as <- _ _. reflexivity. }
  assert (Hnew2 : forall s e tag sty,
             In (s, e, tag, sty) (flat_map (compile_block cs) rule_list) ->
             QRegExp.caseSensitive s = cs /\ QRegExp.caseSensitive e = cs).
  { intros s e tag sty Hin.
    apply in_flat_map in Hin as ([p i f | s0 e0 t f] & _ & Hin);
      simpl in Hin; [contradiction|].
    destruct Hin as [E | []]. injection E as <- <- _ _. split; reflexivity. }
  assert (Hall : forall l,
             (List.length (flat_map (compile_line cs) l)
              + List.length (flat_map (compile_block cs) l)
              = List.length l)%nat).
  { induction l as [|[p i f | s e t f] l IH]; simpl; [reflexivity| |]; lia. }
  pose proof (Hall rule_list) as Hcount.
  unfold buildRules in Hbuild.
  destruct append; cbn [caseSensitive] in Hbuild; rewrite Hflag in Hbuild;
    rewrite fold_add_rule in Hbuild; injection Hbuild as <-;
    cbn [caseSensitive rules blockRules];
    (split; [first [exact Hflag | reflexivity]|]).
  - split; [|split].
    + intros q nth fmt Hin. apply in_app_or in Hin as [Hin | Hin];
        [right; auto | left; eapply Hnew1; exact Hin].
    + intros s e tag sty Hin. apply in_app_or in Hin as [Hin | Hin];
        [right; auto | left; eapply Hnew2; exact Hin].
    + rewrite !length_app. lia.
  - split; [|split].
    + intros q nth fmt Hin. left. eapply Hnew1. exact Hin.
    + intros s e tag sty Hin. left. eapply Hnew2. exact Hin.
    + simpl. lia.
Qed.

Lemma buildRules_flag_on_new_rules_witness :
  caseSensitive (default_highlighter false) = Some false
  /\ (List.length (rules (default_highlighter false))
      + List.length (blockRules (default_highlighter false)) = 75)%nat.
Proof.
  destruct (@buildRules_flag_on_new_rules
              (with_flag false) (default_highlighter false) default_rules
              false false eq_refl)
    as (H1 & _ & _ & H4).
  - vm_compute. reflexivity.
  - split; [exact H1|]. rewrite H4. vm_compute. reflexivity.
Defined.
